(** * Agent task distribution: the store, the assignment policy and the
      task lifecycle of [agent_task_system.py]

    The development embeds the SQLite-backed store [AgentTaskDatabase] and the
    policy layer [TaskDistributor] as functions over an explicit database
    state, and states the properties of the design document against them.

    Modelling conventions.
    - The [agent_tasks] table is the list of its rows in rowid (insertion)
      order; the [agents] table is a finite map keyed by its primary key.
    - A TEXT column that holds an ISO-8601 timestamp is the integer number of
      microseconds the text denotes: for such texts SQLite's byte-wise
      comparison agrees with the order of these integers, and
      [datetime.fromisoformat] followed by subtraction is integer subtraction.
    - INTEGER columns are [Z] (the counters stay far inside SQLite's 64-bit
      range); REAL columns are [Q], they are stored and read back, never
      computed with.
    - The two clocks the code reads, Python's [datetime.now()] and SQLite's
      [CURRENT_TIMESTAMP], are inputs of every operation.
    - Every operation runs in one transaction: it returns the committed
      database together with what the Python call returns or raises. *)

From Stdlib Require Import ZArith QArith.
From stdpp Require Import base strings gmap list sorting.

Local Open Scope Z_scope.

(** ** Python-side outcomes *)

Inductive exception :=
| TypeError
| ValueError (msg : string)
| IntegrityError.

Inductive outcome (A : Type) :=
| Return (a : A)
| Raise (e : exception).
Arguments Return {A} a.
Arguments Raise {A} e.

(** ** Configuration *)

Module Config.
Definition MAX_CONCURRENT_TASKS_PER_AGENT : Z := 3.
Definition TASK_TIMEOUT : Z := 300.
Definition REFRESH_INTERVAL : Z := 2.
End Config.

(** ** Clocks *)

Record Clock := {
  datetime_now : Z;       (* datetime.now(), microseconds *)
  CURRENT_TIMESTAMP : Z   (* SQLite CURRENT_TIMESTAMP, microseconds *)
}.

(** [(a - b).seconds] of a Python [timedelta]: the difference is normalised
    to days, seconds in [0, 86400) and microseconds in [0, 10^6), and
    [.seconds] reads the middle component only. *)
Definition timedelta_seconds (a b : Z) : Z :=
  ((a - b) / 1000000) mod 86400.

(** The whole elapsed time in seconds, rounded down ([total_seconds()]
    truncated), for comparison with [timedelta_seconds]. *)
Definition elapsed_whole_seconds (a b : Z) : Z :=
  (a - b) / 1000000.

(** ** Rows and dataclasses *)

Module AgentTask.
Record t := mk {
  id : string;
  agent_id : string;
  title : string;
  description : string;
  priority : Z;
  status : string;
  progress : Q;
  assigned_at : Z;
  started_at : option Z;
  completed_at : option Z;
  estimated_duration : Z;
  actual_duration : option Z;
  dependencies : list string;
  result : option string;
  error_message : option string;
  created_by : string;
  last_updated : Z
}.
End AgentTask.

(** A dynamically typed Python value, for the fields of an object whose
    constructor received columns of another type. *)
Inductive value :=
| VNone
| VInt (n : Z)
| VFloat (q : Q)
| VStr (s : string)
| VStamp (t : Z)                (* str holding a timestamp *)
| VJson (l : list string)       (* str holding json.dumps of a list *)
| VList (l : list string).

Definition of_stamp (o : option Z) : value :=
  match o with Some t => VStamp t | None => VNone end.
Definition of_int (o : option Z) : value :=
  match o with Some n => VInt n | None => VNone end.
Definition of_str (o : option string) : value :=
  match o with Some s => VStr s | None => VNone end.

(** The [AgentTask] instance as [get_next_task] builds it: the dataclass does
    not check its annotations, so a field holds whatever column it was given. *)
Module TaskObject.
Record t := mk {
  id : string;
  agent_id : string;
  title : string;
  description : string;
  priority : Z;
  status : string;
  progress : value;
  assigned_at : value;
  started_at : value;
  completed_at : value;
  estimated_duration : value;
  actual_duration : value;
  dependencies : value;
  result : value;
  error_message : value;
  created_by : value;
  last_updated : value
}.
End TaskObject.

(** A row of the [agents] table, without its key [id]. *)
Module Agent.
Record t := mk {
  name : string;
  nickname : string;
  title : string;
  model : string;
  status : string;
  max_concurrent_tasks : Z;
  active_tasks : Z;
  completed_tasks : Z;
  failed_tasks : Z;
  total_task_time : Z;
  average_response_time : Q;
  last_heartbeat : option Z;
  created_at : Z;
  updated_at : Z
}.
End Agent.

Module AgentWorkload.
Record t := mk {
  agent_id : string;
  agent_name : string;
  agent_nickname : string;
  current_tasks : list AgentTask.t;
  max_concurrent : Z;
  active_count : Z;
  completed_count : Z;
  failed_count : Z;
  total_task_time : Z;
  average_response_time : Q;
  status : string
}.
End AgentWorkload.

(** An entry of the roster: [agent_config.get(key)] is [None] for a key the
    entry does not have. *)
Module AgentConfig.
Record t := mk {
  id : string;
  name : option string;
  nickname : option string;
  title : option string;
  model : option string
}.
End AgentConfig.

(** ** The database *)

Record Database := {
  agent_tasks : list AgentTask.t;
  agents : gmap string Agent.t
}.

Definition empty_database : Database :=
  {| agent_tasks := []; agents := ∅ |}.

(** ** Predicates of the WHERE clauses *)

Definition is_active (s : string) : bool :=
  bool_decide (s = "assigned") || bool_decide (s = "working").

Definition is_terminal (s : string) : bool :=
  bool_decide (s = "completed") || bool_decide (s = "failed").

Definition has_id (task_id : string) (r : AgentTask.t) : bool :=
  bool_decide (AgentTask.id r = task_id).

(** [WHERE agent_id = ? AND status IN ('assigned', 'working')] *)
Definition active_of (a : string) (r : AgentTask.t) : bool :=
  bool_decide (AgentTask.agent_id r = a) && is_active (AgentTask.status r).

(** [WHERE agent_id = ? AND status = 'pending'] *)
Definition pending_of (a : string) (r : AgentTask.t) : bool :=
  bool_decide (AgentTask.agent_id r = a) &&
  bool_decide (AgentTask.status r = "pending").

(** [SELECT ... WHERE ...]: the matching rows, in table order. *)
Definition select (p : AgentTask.t → bool) (rows : list AgentTask.t)
  : list AgentTask.t :=
  filter (λ r, p r = true) rows.

(** [SELECT COUNT( * ) ... WHERE ...] *)
Definition count (p : AgentTask.t → bool) (rows : list AgentTask.t) : Z :=
  Z.of_nat (length (select p rows)).

(** [SELECT ... WHERE id = ?] followed by [fetchone()]. *)
Definition fetch_task (task_id : string) (rows : list AgentTask.t)
  : option AgentTask.t :=
  head (select (has_id task_id) rows).

(** [ORDER BY priority, assigned_at]: ascending priority number, then
    ascending assignment time. *)
Definition order_le (r1 r2 : AgentTask.t) : Prop :=
  AgentTask.priority r1 < AgentTask.priority r2 ∨
  (AgentTask.priority r1 = AgentTask.priority r2 ∧
   AgentTask.assigned_at r1 ≤ AgentTask.assigned_at r2).

Global Instance order_le_dec r1 r2 : Decision (order_le r1 r2).
Proof. unfold order_le. apply _. Defined.

Definition order_by (rows : list AgentTask.t) : list AgentTask.t :=
  merge_sort order_le rows.


(** ** AgentTaskDatabase *)

(** [INSERT OR REPLACE INTO agents (id, name, nickname, title, model,
    max_concurrent_tasks)]: a row with the same key is deleted first, and the
    columns the statement does not list take their schema defaults. *)
Definition add_agent (db : Database) (clk : Clock) (agent_config : AgentConfig.t)
  : Database :=
  let agent_id := AgentConfig.id agent_config in
  let agent_name := default agent_id (AgentConfig.name agent_config) in
  {| agent_tasks := agent_tasks db;
     agents :=
       <[agent_id :=
           {| Agent.name := agent_name;
              Agent.nickname := default "" (AgentConfig.nickname agent_config);
              Agent.title := default "" (AgentConfig.title agent_config);
              Agent.model := default "" (AgentConfig.model agent_config);
              Agent.status := "available";
              Agent.max_concurrent_tasks := Config.MAX_CONCURRENT_TASKS_PER_AGENT;
              Agent.active_tasks := 0;
              Agent.completed_tasks := 0;
              Agent.failed_tasks := 0;
              Agent.total_task_time := 0;
              Agent.average_response_time := 0;
              Agent.last_heartbeat := None;
              Agent.created_at := CURRENT_TIMESTAMP clk;
              Agent.updated_at := CURRENT_TIMESTAMP clk |}]> (agents db) |}.

(** [UPDATE agents SET last_heartbeat = CURRENT_TIMESTAMP WHERE id = ?] *)
Definition touch_heartbeat (clk : Clock) (ag : Agent.t) : Agent.t :=
  {| Agent.name := Agent.name ag;
     Agent.nickname := Agent.nickname ag;
     Agent.title := Agent.title ag;
     Agent.model := Agent.model ag;
     Agent.status := Agent.status ag;
     Agent.max_concurrent_tasks := Agent.max_concurrent_tasks ag;
     Agent.active_tasks := Agent.active_tasks ag;
     Agent.completed_tasks := Agent.completed_tasks ag;
     Agent.failed_tasks := Agent.failed_tasks ag;
     Agent.total_task_time := Agent.total_task_time ag;
     Agent.average_response_time := Agent.average_response_time ag;
     Agent.last_heartbeat := Some (CURRENT_TIMESTAMP clk);
     Agent.created_at := Agent.created_at ag;
     Agent.updated_at := Agent.updated_at ag |}.

(** The row [create_task] inserts: eleven columns come from the task, the
    other six take their schema defaults. *)
Definition inserted_row (task : AgentTask.t) : AgentTask.t :=
  {| AgentTask.id := AgentTask.id task;
     AgentTask.agent_id := AgentTask.agent_id task;
     AgentTask.title := AgentTask.title task;
     AgentTask.description := AgentTask.description task;
     AgentTask.priority := AgentTask.priority task;
     AgentTask.status := AgentTask.status task;
     AgentTask.progress := 0;
     AgentTask.assigned_at := AgentTask.assigned_at task;
     AgentTask.started_at := None;
     AgentTask.completed_at := None;
     AgentTask.estimated_duration := AgentTask.estimated_duration task;
     AgentTask.actual_duration := None;
     AgentTask.dependencies := AgentTask.dependencies task;
     AgentTask.result := None;
     AgentTask.error_message := None;
     AgentTask.created_by := AgentTask.created_by task;
     AgentTask.last_updated := AgentTask.last_updated task |}.

(** [create_task]: the INSERT violates the primary key when the id is
    taken; otherwise the row is appended and the agent's heartbeat touched. *)
Definition create_task (db : Database) (clk : Clock) (task : AgentTask.t)
  : Database * outcome string :=
  match fetch_task (AgentTask.id task) (agent_tasks db) with
  | Some _ => (db, Raise IntegrityError)
  | None =>
      ({| agent_tasks := agent_tasks db ++ [inserted_row task];
          agents := alter (touch_heartbeat clk) (AgentTask.agent_id task)
                          (agents db) |},
       Return (AgentTask.id task))
  end.

(** [get_agent_tasks]: [WHERE agent_id = ? ORDER BY priority, assigned_at]. *)
Definition get_agent_tasks (db : Database) (agent_id : string)
  : list AgentTask.t :=
  order_by (select (λ r, bool_decide (AgentTask.agent_id r = agent_id))
                   (agent_tasks db)).

Definition get_agent_workload (db : Database) (clk : Clock) (agent_id : string)
  : outcome AgentWorkload.t :=
  match agents db !! agent_id with
  | None => Raise (ValueError ("Agent " +:+ agent_id +:+ " not found"))
  | Some agent_row =>
      let tasks := get_agent_tasks db agent_id in
      let active_tasks :=
        filter (λ task, is_active (AgentTask.status task) = true) tasks in
      let n := Z.of_nat (length active_tasks) in
      let status :=
        if Agent.max_concurrent_tasks agent_row <=? n then "overloaded"
        else if 0 <? n then "busy"
        else match Agent.last_heartbeat agent_row with
             | Some hb =>
                 if 60 <? timedelta_seconds (datetime_now clk) hb
                 then "offline" else "available"
             | None => "available"
             end in
      Return
        {| AgentWorkload.agent_id := agent_id;
           AgentWorkload.agent_name := Agent.name agent_row;
           AgentWorkload.agent_nickname :=
             if bool_decide (Agent.nickname agent_row = "")
             then Agent.name agent_row else Agent.nickname agent_row;
           AgentWorkload.current_tasks := active_tasks;
           AgentWorkload.max_concurrent := Agent.max_concurrent_tasks agent_row;
           AgentWorkload.active_count := n;
           AgentWorkload.completed_count := Agent.completed_tasks agent_row;
           AgentWorkload.failed_count := Agent.failed_tasks agent_row;
           AgentWorkload.total_task_time := Agent.total_task_time agent_row;
           AgentWorkload.average_response_time :=
             Agent.average_response_time agent_row;
           AgentWorkload.status := status |}
  end.

(** The SET list [update_task_status] assembles, applied to one row:
    [status] and [last_updated] always; [progress] and [result] when given;
    [started_at] when the new status is 'working'; [completed_at] and
    [actual_duration] when it is 'completed' or 'failed'. *)
Definition set_task_status (clk : Clock) (status : string)
    (progress : option Q) (result : option string) (duration : Z)
    (r : AgentTask.t) : AgentTask.t :=
  {| AgentTask.id := AgentTask.id r;
     AgentTask.agent_id := AgentTask.agent_id r;
     AgentTask.title := AgentTask.title r;
     AgentTask.description := AgentTask.description r;
     AgentTask.priority := AgentTask.priority r;
     AgentTask.status := status;
     AgentTask.progress := default (AgentTask.progress r) progress;
     AgentTask.assigned_at := AgentTask.assigned_at r;
     AgentTask.started_at :=
       if bool_decide (status = "working") then Some (CURRENT_TIMESTAMP clk)
       else AgentTask.started_at r;
     AgentTask.completed_at :=
       if is_terminal status then Some (CURRENT_TIMESTAMP clk)
       else AgentTask.completed_at r;
     AgentTask.estimated_duration := AgentTask.estimated_duration r;
     AgentTask.actual_duration :=
       if is_terminal status then Some duration
       else AgentTask.actual_duration r;
     AgentTask.dependencies := AgentTask.dependencies r;
     AgentTask.result :=
       match result with Some s => Some s | None => AgentTask.result r end;
     AgentTask.error_message := AgentTask.error_message r;
     AgentTask.created_by := AgentTask.created_by r;
     AgentTask.last_updated := CURRENT_TIMESTAMP clk |}.

(** [UPDATE agents SET {stats}_tasks = {stats}_tasks + 1,
    total_task_time = total_task_time + ?, updated_at = CURRENT_TIMESTAMP] *)
Definition add_stats (clk : Clock) (status : string) (duration : Z)
    (ag : Agent.t) : Agent.t :=
  {| Agent.name := Agent.name ag;
     Agent.nickname := Agent.nickname ag;
     Agent.title := Agent.title ag;
     Agent.model := Agent.model ag;
     Agent.status := Agent.status ag;
     Agent.max_concurrent_tasks := Agent.max_concurrent_tasks ag;
     Agent.active_tasks := Agent.active_tasks ag;
     Agent.completed_tasks :=
       if bool_decide (status = "completed") then Agent.completed_tasks ag + 1
       else Agent.completed_tasks ag;
     Agent.failed_tasks :=
       if bool_decide (status = "completed") then Agent.failed_tasks ag
       else Agent.failed_tasks ag + 1;
     Agent.total_task_time := Agent.total_task_time ag + duration;
     Agent.average_response_time := Agent.average_response_time ag;
     Agent.last_heartbeat := Agent.last_heartbeat ag;
     Agent.created_at := Agent.created_at ag;
     Agent.updated_at := CURRENT_TIMESTAMP clk |}.

(** [UPDATE agent_tasks SET ... WHERE id = ?] *)
Definition update_where_id (task_id : string) (f : AgentTask.t → AgentTask.t)
    (rows : list AgentTask.t) : list AgentTask.t :=
  (λ r, if has_id task_id r then f r else r) <$> rows.

Definition update_task_status (db : Database) (clk : Clock) (task_id : string)
    (status : string) (progress : option Q) (result : option string)
  : Database * outcome unit :=
  if is_terminal status then
    match fetch_task task_id (agent_tasks db) with
    | None => (db, Raise TypeError)      (* fetchone() is None: None[0] *)
    | Some row =>
        let duration :=
          timedelta_seconds (datetime_now clk) (AgentTask.assigned_at row) in
        ({| agent_tasks :=
              update_where_id task_id
                (set_task_status clk status progress result duration)
                (agent_tasks db);
            agents := alter (add_stats clk status duration)
                            (AgentTask.agent_id row) (agents db) |},
         Return ())
    end
  else
    ({| agent_tasks :=
          update_where_id task_id
            (set_task_status clk status progress result 0) (agent_tasks db);
        agents := agents db |},
     Return ()).

(** [UPDATE agent_tasks SET status = 'assigned',
    last_updated = CURRENT_TIMESTAMP] *)
Definition mark_assigned (clk : Clock) (r : AgentTask.t) : AgentTask.t :=
  {| AgentTask.id := AgentTask.id r;
     AgentTask.agent_id := AgentTask.agent_id r;
     AgentTask.title := AgentTask.title r;
     AgentTask.description := AgentTask.description r;
     AgentTask.priority := AgentTask.priority r;
     AgentTask.status := "assigned";
     AgentTask.progress := AgentTask.progress r;
     AgentTask.assigned_at := AgentTask.assigned_at r;
     AgentTask.started_at := AgentTask.started_at r;
     AgentTask.completed_at := AgentTask.completed_at r;
     AgentTask.estimated_duration := AgentTask.estimated_duration r;
     AgentTask.actual_duration := AgentTask.actual_duration r;
     AgentTask.dependencies := AgentTask.dependencies r;
     AgentTask.result := AgentTask.result r;
     AgentTask.error_message := AgentTask.error_message r;
     AgentTask.created_by := AgentTask.created_by r;
     AgentTask.last_updated := CURRENT_TIMESTAMP clk |}.

(** [UPDATE agents SET active_tasks = ?, updated_at = CURRENT_TIMESTAMP] *)
Definition set_active_tasks (clk : Clock) (n : Z) (ag : Agent.t) : Agent.t :=
  {| Agent.name := Agent.name ag;
     Agent.nickname := Agent.nickname ag;
     Agent.title := Agent.title ag;
     Agent.model := Agent.model ag;
     Agent.status := Agent.status ag;
     Agent.max_concurrent_tasks := Agent.max_concurrent_tasks ag;
     Agent.active_tasks := n;
     Agent.completed_tasks := Agent.completed_tasks ag;
     Agent.failed_tasks := Agent.failed_tasks ag;
     Agent.total_task_time := Agent.total_task_time ag;
     Agent.average_response_time := Agent.average_response_time ag;
     Agent.last_heartbeat := Agent.last_heartbeat ag;
     Agent.created_at := Agent.created_at ag;
     Agent.updated_at := CURRENT_TIMESTAMP clk |}.

(** The object [get_next_task] returns for the fetched row. From [progress]
    on, every keyword receives the column one place to the left of its own
    ([progress=row[5]] is the status column, and so on), and [dependencies]
    is [json.loads(row[11]) if row[11] else []] with [row[11]] the
    [actual_duration] column: NULL and 0 give the empty list, any other
    integer makes [json.loads] raise. *)
Definition returned_task (row : AgentTask.t) : outcome TaskObject.t :=
  let build deps :=
    {| TaskObject.id := AgentTask.id row;
       TaskObject.agent_id := AgentTask.agent_id row;
       TaskObject.title := AgentTask.title row;
       TaskObject.description := AgentTask.description row;
       TaskObject.priority := AgentTask.priority row;
       TaskObject.status := "assigned";
       TaskObject.progress := VStr (AgentTask.status row);
       TaskObject.assigned_at := VFloat (AgentTask.progress row);
       TaskObject.started_at := VStamp (AgentTask.assigned_at row);
       TaskObject.completed_at := of_stamp (AgentTask.started_at row);
       TaskObject.estimated_duration := of_stamp (AgentTask.completed_at row);
       TaskObject.actual_duration := VInt (AgentTask.estimated_duration row);
       TaskObject.dependencies := deps;
       TaskObject.result := VJson (AgentTask.dependencies row);
       TaskObject.error_message := of_str (AgentTask.result row);
       TaskObject.created_by := of_str (AgentTask.error_message row);
       TaskObject.last_updated := VStr (AgentTask.created_by row) |} in
  match AgentTask.actual_duration row with
  | None => Return (build (VList []))
  | Some d => if d =? 0 then Return (build (VList [])) else Raise TypeError
  end.

Definition get_next_task (db : Database) (clk : Clock) (agent_id : string)
  : Database * outcome (option TaskObject.t) :=
  let active_count := count (active_of agent_id) (agent_tasks db) in
  match agents db !! agent_id with
  | None => (db, Raise TypeError)        (* fetchone() is None: None[0] *)
  | Some agent_row =>
      let max_concurrent := Agent.max_concurrent_tasks agent_row in
      if max_concurrent <=? active_count then (db, Return None)
      else
        match head (order_by (select (pending_of agent_id) (agent_tasks db))) with
        | None => (db, Return None)
        | Some row =>
            let task_id := AgentTask.id row in
            ({| agent_tasks :=
                  update_where_id task_id (mark_assigned clk) (agent_tasks db);
                agents := alter (set_active_tasks clk (active_count + 1))
                                agent_id (agents db) |},
             match returned_task row with
             | Return task => Return (Some task)
             | Raise e => Raise e
             end)
        end
  end.


(** ** TaskDistributor *)

Definition task_mapping : list (string * list string) :=
  [ ("system_design", ["cto-leader"; "sa-architect"; "softarch-lead"]);
    ("business_analysis", ["ba-strategist"; "uiux-researcher"; "cto-leader"]);
    ("development",
       ["leaddeveloper-tech"; "seniordeveloper-code";
        "juniorddeveloper-learning"]);
    ("testing", ["qa-quality"; "seniordeveloper-code"]);
    ("infrastructure",
       ["sysadmin-infrastructure"; "devops-automation"; "dba-data"]);
    ("performance", ["dba-data"; "devops-automation"; "seniordeveloper-code"]);
    ("ui_ux", ["uiux-researcher"; "ba-strategist"]);
    ("general", ["team-coordinator"]) ].

(** [d.get(key, default)] on a dict literal. *)
Fixpoint dict_get {A : Type} (d : list (string * A)) (key : string) (dflt : A)
  : A :=
  match d with
  | [] => dflt
  | (k, v) :: rest => if bool_decide (k = key) then v else dict_get rest key dflt
  end.

Definition suitable_agents (task_type : string) : list string :=
  dict_get task_mapping task_type ["team-coordinator"].

(** [workload.active_count < min_workload], with [None] for [float('inf')]. *)
Definition below (n : Z) (min_workload : option Z) : bool :=
  match min_workload with
  | None => true
  | Some m => n <? m
  end.

(** The loop of [find_best_agent] over the remaining candidates, carrying
    [best_agent] and [min_workload]. [except ValueError: continue] skips a
    candidate whose workload query raises it. *)
Fixpoint find_best_loop (db : Database) (clk : Clock) (candidates : list string)
    (best_agent : option string) (min_workload : option Z)
  : outcome (option string) :=
  match candidates with
  | [] => Return best_agent
  | agent_id :: rest =>
      match get_agent_workload db clk agent_id with
      | Return workload =>
          if AgentWorkload.active_count workload
               <? AgentWorkload.max_concurrent workload
          then
            if below (AgentWorkload.active_count workload) min_workload
            then find_best_loop db clk rest (Some agent_id)
                   (Some (AgentWorkload.active_count workload))
            else find_best_loop db clk rest best_agent min_workload
          else find_best_loop db clk rest best_agent min_workload
      | Raise (ValueError _) => find_best_loop db clk rest best_agent min_workload
      | Raise e => Raise e
      end
  end.

Definition find_best_agent (db : Database) (clk : Clock) (task_type : string)
  : outcome (option string) :=
  find_best_loop db clk (suitable_agents task_type) None None.

Definition estimate_task_duration (task_type : string) : Z :=
  dict_get
    [ ("system_design", 600); ("business_analysis", 300);
      ("development", 900); ("testing", 180); ("infrastructure", 240);
      ("performance", 360); ("ui_ux", 420); ("general", 60) ]
    task_type 300.

Definition notify_agent (db : Database) (clk : Clock) (agent_id task_id : string)
  : Database * outcome unit :=
  update_task_status db clk task_id "assigned" None None.

(** The [AgentTask] that [distribute_task] constructs. *)
Definition new_task (clk : Clock) (task_id agent_id task_type title
    description : string) (priority : Z) : AgentTask.t :=
  {| AgentTask.id := task_id;
     AgentTask.agent_id := agent_id;
     AgentTask.title := title;
     AgentTask.description := description;
     AgentTask.priority := priority;
     AgentTask.status := "pending";
     AgentTask.progress := 0;
     AgentTask.assigned_at := datetime_now clk;
     AgentTask.started_at := None;
     AgentTask.completed_at := None;
     AgentTask.estimated_duration := estimate_task_duration task_type;
     AgentTask.actual_duration := None;
     AgentTask.dependencies := [];
     AgentTask.result := None;
     AgentTask.error_message := None;
     AgentTask.created_by := "system";
     AgentTask.last_updated := datetime_now clk |}.

(** [distribute_task]; [task_id] is the value [uuid.uuid4()] produced. The
    clocks are read once for the whole call. *)
Definition distribute_task (db : Database) (clk : Clock) (task_id : string)
    (task_type title description : string) (priority : Z)
    (assigned_to : option string) : Database * outcome string :=
  let chosen :=
    match assigned_to with
    | Some a =>
        if bool_decide (a = "") then find_best_agent db clk task_type
        else Return (Some a)
    | None => find_best_agent db clk task_type
    end in
  let no_agent := Raise (ValueError "No suitable agent found for this task") in
  match chosen with
  | Raise e => (db, Raise e)
  | Return None => (db, no_agent)
  | Return (Some agent_id) =>
      if bool_decide (agent_id = "") then (db, no_agent)
      else
        let task :=
          new_task clk task_id agent_id task_type title description priority in
        match create_task db clk task with
        | (db1, Raise e) => (db1, Raise e)
        | (db1, Return _) =>
            match notify_agent db1 clk agent_id task_id with
            | (db2, Raise e) => (db2, Raise e)
            | (db2, Return _) => (db2, Return task_id)
            end
        end
  end.

(** ** Sequences of store operations *)

Inductive operation :=
| OpCreateTask (task : AgentTask.t)
| OpNotify (agent_id task_id : string)
| OpGetNextTask (agent_id : string)
| OpUpdateTaskStatus (task_id status : string) (progress : option Q)
                     (result : option string).

(** One operation at one reading of the clocks; what the call returns is
    dropped, the committed database is kept. *)
Definition step (db : Database) (call : Clock * operation) : Database :=
  match call with
  | (clk, OpCreateTask task) => fst (create_task db clk task)
  | (clk, OpNotify agent_id task_id) => fst (notify_agent db clk agent_id task_id)
  | (clk, OpGetNextTask agent_id) => fst (get_next_task db clk agent_id)
  | (clk, OpUpdateTaskStatus task_id status progress result) =>
      fst (update_task_status db clk task_id status progress result)
  end.

Definition run (db : Database) (calls : list (Clock * operation)) : Database :=
  foldl step db calls.

(** The live number of the agent's tasks in 'assigned' or 'working'. *)
Definition live_active (db : Database) (agent_id : string) : Z :=
  count (active_of agent_id) (agent_tasks db).

(** The stored counter, when the agent has a row. *)
Definition stored_active (db : Database) (agent_id : string) : option Z :=
  Agent.active_tasks <$> agents db !! agent_id.

Definition status_of (db : Database) (task_id : string) : option string :=
  AgentTask.status <$> fetch_task task_id (agent_tasks db).

(** ** Derived notions used in the statements *)

(** The primary key of [agent_tasks]: no two rows share an id. *)
Definition unique_ids (db : Database) : Prop :=
  NoDup (AgentTask.id <$> agent_tasks db).

(** A candidate the policy may choose: a known agent below its capacity. *)
Definition can_take (db : Database) (agent_id : string) : Prop :=
  ∃ ag, agents db !! agent_id = Some ag ∧
        live_active db agent_id < Agent.max_concurrent_tasks ag.

(** ** A one-agent roster and a timeline for the worked scenarios *)

Definition qa_config : AgentConfig.t :=
  {| AgentConfig.id := "qa-quality";
     AgentConfig.name := Some "Quality Engineer";
     AgentConfig.nickname := Some "QA";
     AgentConfig.title := Some "QA Lead";
     AgentConfig.model := Some "m1" |}.

(** Both clocks at [s] seconds. *)
Definition at_second (s : Z) : Clock :=
  {| datetime_now := s * 1000000; CURRENT_TIMESTAMP := s * 1000000 |}.

(** A pending task for "qa-quality", as [distribute_task] would build it at
    second [s]. *)
Definition qa_task (task_id : string) (priority s : Z) : AgentTask.t :=
  {| AgentTask.id := task_id;
     AgentTask.agent_id := "qa-quality";
     AgentTask.title := "check";
     AgentTask.description := "run the checks";
     AgentTask.priority := priority;
     AgentTask.status := "pending";
     AgentTask.progress := 0;
     AgentTask.assigned_at := s * 1000000;
     AgentTask.started_at := None;
     AgentTask.completed_at := None;
     AgentTask.estimated_duration := 180;
     AgentTask.actual_duration := None;
     AgentTask.dependencies := [];
     AgentTask.result := None;
     AgentTask.error_message := None;
     AgentTask.created_by := "system";
     AgentTask.last_updated := s * 1000000 |}.

(** The store after the registry has run once. *)
Definition roster_db : Database := add_agent empty_database (at_second 0) qa_config.

(** The row [add_agent] writes for [qa_config] at second 0, with the given
    [last_heartbeat]. *)
Definition qa_row (heartbeat : option Z) : Agent.t :=
  {| Agent.name := "Quality Engineer";
     Agent.nickname := "QA";
     Agent.title := "QA Lead";
     Agent.model := "m1";
     Agent.status := "available";
     Agent.max_concurrent_tasks := 3;
     Agent.active_tasks := 0;
     Agent.completed_tasks := 0;
     Agent.failed_tasks := 0;
     Agent.total_task_time := 0;
     Agent.average_response_time := 0;
     Agent.last_heartbeat := heartbeat;
     Agent.created_at := 0;
     Agent.updated_at := 0 |}.

(** One task created with an explicit agent through [distribute_task] (it is
    'assigned' when the call returns), then a second row inserted through
    [create_task] alone (it stays 'pending'). *)
Definition drift_db : Database :=
  let db1 := fst (distribute_task roster_db (at_second 1) "t1" "testing"
                    "check" "run the checks" 1 (Some "qa-quality")) in
  fst (create_task db1 (at_second 2) (qa_task "t2" 2 2)).

(** Two pending rows, the later one with the more urgent priority. *)
Definition queue_db : Database :=
  run roster_db
    [ (at_second 1, OpCreateTask (qa_task "t1" 2 1));
      (at_second 2, OpCreateTask (qa_task "t2" 1 2)) ].

(** One task of "qa-quality", inserted at second 0, pulled by the scheduler
    and started at second 1. *)
Definition working_db : Database :=
  run roster_db
    [ (at_second 0, OpCreateTask (qa_task "t1" 1 0));
      (at_second 1, OpGetNextTask "qa-quality");
      (at_second 1, OpUpdateTaskStatus "t1" "working" (Some 10%Q) None) ].

(** The same task completed two minutes after its assignment. *)
Definition done_db : Database :=
  run working_db
    [ (at_second 120,
       OpUpdateTaskStatus "t1" "completed" (Some 100%Q) (Some "done")) ].

(** An operation whose target is the given task. *)
Definition addresses (task_id : string) (op : operation) : Prop :=
  match op with
  | OpNotify _ t => t = task_id
  | OpUpdateTaskStatus t _ _ _ => t = task_id
  | OpCreateTask _ => False
  | OpGetNextTask _ => False
  end.

(** A task created and handed to the notifier, never pulled by the
    scheduler. *)
Definition notified_db : Database :=
  run roster_db
    [ (at_second 1, OpCreateTask (qa_task "t1" 1 1));
      (at_second 1, OpNotify "qa-quality" "t1") ].

(** What [find_best_agent] promises about its answer, over a candidate list:
    the chosen candidate can take a task, every eligible candidate before it
    has strictly more active tasks and every eligible candidate after it has
    at least as many; no answer means no candidate is eligible. *)
Definition first_least (db : Database) (candidates : list string)
    (best : option string) : Prop :=
  match best with
  | Some a =>
      ∃ before after,
        candidates = before ++ a :: after ∧
        can_take db a ∧
        (∀ b, b ∈ before → can_take db b → live_active db a < live_active db b) ∧
        (∀ b, b ∈ after → can_take db b → live_active db a ≤ live_active db b)
  | None => ∀ b, b ∈ candidates → ¬ can_take db b
  end.

Definition senior_config : AgentConfig.t :=
  {| AgentConfig.id := "seniordeveloper-code";
     AgentConfig.name := None;
     AgentConfig.nickname := None;
     AgentConfig.title := None;
     AgentConfig.model := None |}.

(** Two 'testing' candidates: "qa-quality" with two active tasks,
    "seniordeveloper-code" with none. *)
Definition two_agents_db : Database :=
  let db0 := add_agent roster_db (at_second 0) senior_config in
  let db1 := fst (distribute_task db0 (at_second 1) "t1" "testing" "a" "b" 2
                    (Some "qa-quality")) in
  fst (distribute_task db1 (at_second 2) "t2" "testing" "a" "b" 2
         (Some "qa-quality")).

(** ** The registry *)

(** An entry of the roster list as the configuration file gives it: any key,
    the id included, may be absent. *)
Module RosterEntry.
Record t := mk {
  id : option string;
  name : option string;
  nickname : option string;
  title : option string;
  model : option string
}.
End RosterEntry.

(** The entry seen by [add_agent] once its id is known to be present. *)
Definition entry_config (agent_id : string) (e : RosterEntry.t) : AgentConfig.t :=
  {| AgentConfig.id := agent_id;
     AgentConfig.name := RosterEntry.name e;
     AgentConfig.nickname := RosterEntry.nickname e;
     AgentConfig.title := RosterEntry.title e;
     AgentConfig.model := RosterEntry.model e |}.

(** One iteration of [_initialize_agents]: [if agent_id:] skips an entry
    whose id is absent or empty. *)
Definition initialize_entry (db : Database) (item : Clock * RosterEntry.t)
  : Database :=
  match RosterEntry.id item.2 with
  | Some agent_id =>
      if bool_decide (agent_id = "") then db
      else add_agent db item.1 (entry_config agent_id item.2)
  | None => db
  end.

(** [_initialize_agents], each entry with the clock reading of its insert. *)
Definition _initialize_agents (db : Database)
    (agents_list : list (Clock * RosterEntry.t)) : Database :=
  foldl initialize_entry db agents_list.

(** ** The scheduler step and the simulated execution *)

(** [process_agent_heartbeat]: the heartbeat UPDATE, then [get_next_task],
    then the start of the task it returned; [except Exception] logs whatever
    was raised. The result is the committed database and the task handed to
    [asyncio.create_task(self.simulate_task_completion(...))], if any. The
    clocks are read once for the whole call. *)
Definition process_agent_heartbeat (db : Database) (clk : Clock)
    (agent_id : string) : Database * option TaskObject.t :=
  let db0 :=
    {| agent_tasks := agent_tasks db;
       agents := alter (touch_heartbeat clk) agent_id (agents db) |} in
  match get_next_task db0 clk agent_id with
  | (db1, Return (Some next_task)) =>
      match update_task_status db1 clk (TaskObject.id next_task) "working"
              (Some 10%Q) None with
      | (db2, Return _) => (db2, Some next_task)
      | (db2, Raise _) => (db2, None)
      end
  | (db1, Return None) => (db1, None)
  | (db1, Raise _) => (db1, None)
  end.

(** [type(v).__name__] *)
Definition type_name (v : value) : string :=
  match v with
  | VNone => "NoneType"
  | VInt _ => "int"
  | VFloat _ => "float"
  | VStr _ => "str"
  | VStamp _ => "str"
  | VJson _ => "str"
  | VList _ => "list"
  end.

(** [v / n] for an int [n] other than 0: defined on numbers, a [TypeError]
    on anything else. *)
Definition truediv (v : value) (n : Z) : outcome Q :=
  match v with
  | VInt a => Return (inject_Z a / inject_Z n)%Q
  | VFloat q => Return (q / inject_Z n)%Q
  | _ => Raise TypeError
  end.

(** [str(e)] of the [TypeError] that [v / 10] raises. *)
Definition truediv_error (v : value) : string :=
  "unsupported operand type(s) for /: '" +:+ type_name v +:+ "' and 'int'".

(** [str(e)] of the [TypeError] that [cursor.fetchone()[0]] raises on no
    row. *)
Definition subscript_error : string := "'NoneType' object is not subscriptable".

(** The progress updates [for progress in range(10, 101, 10)], the [k]-th
    store operation of the routine at clock [clock_at k]. *)
Fixpoint progress_loop (db : Database) (clock_at : nat → Clock) (k : nat)
    (task_id : string) (steps : list Z) : Database :=
  match steps with
  | [] => db
  | progress :: rest =>
      progress_loop
        (fst (update_task_status db (clock_at k) task_id "working"
                (Some (inject_Z progress)) None))
        clock_at (S k) task_id rest
  end.

(** The [except Exception] branch of [simulate_task_completion]: the task is
    marked 'failed' with the text of the exception as its result; what that
    update raises leaves the routine. *)
Definition except_branch (db : Database) (clk : Clock) (task_id msg : string)
  : Database * outcome (option TaskObject.t) :=
  match update_task_status db clk task_id "failed" None
          (Some ("Task failed: " +:+ msg)) with
  | (db', Return _) => (db', Return None)
  | (db', Raise e) => (db', Raise e)
  end.

Definition completion_result (task : TaskObject.t) : string :=
  "Task '" +:+ TaskObject.title task
  +:+ "' completed successfully by agent " +:+ TaskObject.agent_id task.

(** [simulate_task_completion], run with no other coroutine between its
    store operations; [clock_at k] is the clock reading at its [k]-th store
    operation. It returns the task its closing [process_agent_heartbeat]
    hands to a new simulation, if any. *)
Definition simulate_task_completion (db : Database) (clock_at : nat → Clock)
    (task : TaskObject.t) : Database * outcome (option TaskObject.t) :=
  match truediv (TaskObject.estimated_duration task) 10 with
  | Raise _ =>
      except_branch db (clock_at 0%nat) (TaskObject.id task)
        (truediv_error (TaskObject.estimated_duration task))
  | Return work_time =>
      let db10 :=
        progress_loop db clock_at 0 (TaskObject.id task)
          [10; 20; 30; 40; 50; 60; 70; 80; 90; 100] in
      match update_task_status db10 (clock_at 10%nat) (TaskObject.id task)
              "completed" (Some 100%Q) (Some (completion_result task)) with
      | (db11, Raise _) =>
          except_branch db11 (clock_at 11%nat) (TaskObject.id task)
            subscript_error
      | (db11, Return _) =>
          let out := process_agent_heartbeat db11 (clock_at 11%nat)
                       (TaskObject.agent_id task) in
          (out.1, Return out.2)
      end
  end.

(** ** The whole task interface *)

(** A call of any entry point that writes tasks, with the clock readings it
    makes. ([add_agent], the registry's write, is not one of them.) *)
Inductive api_call :=
| CallCreateTask (clk : Clock) (task : AgentTask.t)
| CallUpdateTaskStatus (clk : Clock) (task_id status : string)
                       (progress : option Q) (result : option string)
| CallGetNextTask (clk : Clock) (agent_id : string)
| CallNotifyAgent (clk : Clock) (agent_id task_id : string)
| CallDistributeTask (clk : Clock) (task_id task_type title description : string)
                     (priority : Z) (assigned_to : option string)
| CallProcessAgentHeartbeat (clk : Clock) (agent_id : string)
| CallSimulateTaskCompletion (clock_at : nat → Clock) (task : TaskObject.t).

(** The committed database after a call; what the call returns is dropped. *)
Definition api_step (db : Database) (call : api_call) : Database :=
  match call with
  | CallCreateTask clk task => fst (create_task db clk task)
  | CallUpdateTaskStatus clk task_id status progress result =>
      fst (update_task_status db clk task_id status progress result)
  | CallGetNextTask clk agent_id => fst (get_next_task db clk agent_id)
  | CallNotifyAgent clk agent_id task_id =>
      fst (notify_agent db clk agent_id task_id)
  | CallDistributeTask clk task_id task_type title description priority
      assigned_to =>
      fst (distribute_task db clk task_id task_type title description priority
             assigned_to)
  | CallProcessAgentHeartbeat clk agent_id =>
      fst (process_agent_heartbeat db clk agent_id)
  | CallSimulateTaskCompletion clock_at task =>
      fst (simulate_task_completion db clock_at task)
  end.

Definition api_run (db : Database) (calls : list api_call) : Database :=
  foldl api_step db calls.

(** What no call changes in a task row: its key, its owner and the columns
    written only at insertion. *)
Definition same_task (r r' : AgentTask.t) : Prop :=
  AgentTask.id r' = AgentTask.id r ∧
  AgentTask.agent_id r' = AgentTask.agent_id r ∧
  AgentTask.title r' = AgentTask.title r ∧
  AgentTask.description r' = AgentTask.description r ∧
  AgentTask.priority r' = AgentTask.priority r ∧
  AgentTask.assigned_at r' = AgentTask.assigned_at r ∧
  AgentTask.estimated_duration r' = AgentTask.estimated_duration r ∧
  AgentTask.dependencies r' = AgentTask.dependencies r ∧
  AgentTask.error_message r' = AgentTask.error_message r ∧
  AgentTask.created_by r' = AgentTask.created_by r.

(** The task table grows at its end and keeps [same_task] row by row. *)
Definition tasks_extend (db db' : Database) : Prop :=
  ∃ kept new,
    agent_tasks db' = kept ++ new ∧
    Forall2 same_task (agent_tasks db) kept ∧
    Forall (λ r, AgentTask.error_message r = None) new.

(** What no task call changes in an agent row, and the counters that only
    grow. *)
Definition agent_grows (ag ag' : Agent.t) : Prop :=
  Agent.name ag' = Agent.name ag ∧
  Agent.nickname ag' = Agent.nickname ag ∧
  Agent.title ag' = Agent.title ag ∧
  Agent.model ag' = Agent.model ag ∧
  Agent.status ag' = Agent.status ag ∧
  Agent.max_concurrent_tasks ag' = Agent.max_concurrent_tasks ag ∧
  Agent.average_response_time ag' = Agent.average_response_time ag ∧
  Agent.created_at ag' = Agent.created_at ag ∧
  Agent.completed_tasks ag ≤ Agent.completed_tasks ag' ∧
  Agent.failed_tasks ag ≤ Agent.failed_tasks ag' ∧
  Agent.total_task_time ag ≤ Agent.total_task_time ag'.

(** The agents table keeps its keys, and every row [agent_grows]. *)
Definition agents_grow (db db' : Database) : Prop :=
  ∀ a, match agents db !! a, agents db' !! a with
       | Some ag, Some ag' => agent_grows ag ag'
       | None, None => True
       | _, _ => False
       end.

(** A busy afternoon on [queue_db]: a task is distributed by type, the
    scheduler pulls and starts the most urgent pending task, its simulated
    execution runs, a client reports a status, and the scheduler steps
    again. *)
Definition afternoon : list api_call :=
  [ CallDistributeTask (at_second 3) "t3" "testing" "regress" "rerun" 2 None;
    CallProcessAgentHeartbeat (at_second 4) "qa-quality";
    CallSimulateTaskCompletion (λ k, at_second (5 + Z.of_nat k))
      {| TaskObject.id := "t2";
         TaskObject.agent_id := "qa-quality";
         TaskObject.title := "check";
         TaskObject.description := "run the checks";
         TaskObject.priority := 1;
         TaskObject.status := "assigned";
         TaskObject.progress := VStr "pending";
         TaskObject.assigned_at := VFloat 0;
         TaskObject.started_at := VStamp 2000000;
         TaskObject.completed_at := VNone;
         TaskObject.estimated_duration := VNone;
         TaskObject.actual_duration := VInt 180;
         TaskObject.dependencies := VList [];
         TaskObject.result := VJson [];
         TaskObject.error_message := VNone;
         TaskObject.created_by := VNone;
         TaskObject.last_updated := VStr "system" |};
    CallUpdateTaskStatus (at_second 9) "t3" "completed" (Some 100%Q)
      (Some "done");
    CallProcessAgentHeartbeat (at_second 10) "qa-quality";
    CallProcessAgentHeartbeat (at_second 11) "nobody" ].

(** The row of task "t1" in [working_db]. *)
Definition working_row : AgentTask.t :=
  set_task_status (at_second 1) "working" (Some 10%Q) None 0
    (mark_assigned (at_second 1) (inserted_row (qa_task "t1" 1 0))).



(** The task types the policy has an entry for. *)
Definition known_task_types : list string :=
  [ "system_design"; "business_analysis"; "development"; "testing";
    "infrastructure"; "performance"; "ui_ux"; "general" ].

(** The agent [distribute_task] settles on before it creates anything: the
    explicit one when it is non-empty, the policy's answer otherwise. (The
    expression bound to [chosen] in [distribute_task].) *)
Definition chosen_agent (db : Database) (clk : Clock) (task_type : string)
    (assigned_to : option string) : outcome (option string) :=
  match assigned_to with
  | Some a =>
      if bool_decide (a = "") then find_best_agent db clk task_type
      else Return (Some a)
  | None => find_best_agent db clk task_type
  end.

(** ** The event loop *)

(** The store together with the simulations that [asyncio.create_task] has
    scheduled and that have not run yet. *)
Record sched_state := {
  store : Database;
  spawned : list TaskObject.t
}.

(** What the event loop runs next: a scheduler step for one agent (the body
    of the [for agent_id in agent_ids] loop of [start]), or the [i]-th
    scheduled simulation. A simulation is run as one event; the simulations
    the scheduler schedules raise at their first statement and reach no
    [await], so for them this loses no interleaving. *)
Inductive sched_event :=
| Beat (clk : Clock) (agent_id : string)
| Sim (clock_at : nat → Clock) (i : nat).

Definition sched_step (st : sched_state) (ev : sched_event) : sched_state :=
  match ev with
  | Beat clk agent_id =>
      let out := process_agent_heartbeat (store st) clk agent_id in
      {| store := out.1; spawned := spawned st ++ option_list out.2 |}
  | Sim clock_at i =>
      match spawned st !! i with
      | None => st
      | Some task =>
          let out := simulate_task_completion (store st) clock_at task in
          {| store := out.1;
             spawned := delete i (spawned st) ++
                        match out.2 with
                        | Return (Some next) => [next]
                        | _ => []
                        end |}
      end
  end.

Definition sched_run (st : sched_state) (events : list sched_event)
  : sched_state :=
  foldl sched_step st events.

(** The event loop at start-up: nothing scheduled yet. *)
Definition sched_init (db : Database) : sched_state :=
  {| store := db; spawned := [] |}.

(** An evening of the event loop on [queue_db]. *)
Definition evening : list sched_event :=
  [ Beat (at_second 3) "qa-quality";
    Beat (at_second 3) "nobody";
    Sim (λ k, at_second (4 + Z.of_nat k)) 0;
    Beat (at_second 5) "qa-quality";
    Sim (λ k, at_second (6 + Z.of_nat k)) 0;
    Sim (λ k, at_second (7 + Z.of_nat k)) 3 ].

(** Every scheduled simulation will raise at its first statement. *)
Definition pool_raises (st : sched_state) : Prop :=
  Forall (λ task, truediv (TaskObject.estimated_duration task) 10
                  = Raise TypeError) (spawned st).

(** Nothing was completed between two stores: the [completed_tasks] of every
    agent are the same, the task table has the same ids row by row, and a
    row that is 'completed' was 'completed' before. *)
Definition nothing_completed (db db' : Database) : Prop :=
  (∀ a, Agent.completed_tasks <$> agents db' !! a
        = Agent.completed_tasks <$> agents db !! a) ∧
  Forall2 (λ r r', AgentTask.id r' = AgentTask.id r ∧
                   (AgentTask.status r' = "completed" →
                    AgentTask.status r = "completed"))
          (agent_tasks db) (agent_tasks db').

(** The roster registers an id: some entry carries it, and it is not the
    empty string. *)
Definition registered (agents_list : list (Clock * RosterEntry.t))
    (agent_id : string) : Prop :=
  agent_id ≠ "" ∧
  ∃ item, item ∈ agents_list ∧ RosterEntry.id item.2 = Some agent_id.

(** A roster with an entry that has no id, one with an empty id, and two
    entries for "qa-quality". *)
Definition sample_roster : list (Clock * RosterEntry.t) :=
  [ (at_second 300,
     {| RosterEntry.id := None; RosterEntry.name := Some "ghost";
        RosterEntry.nickname := None; RosterEntry.title := None;
        RosterEntry.model := None |});
    (at_second 300,
     {| RosterEntry.id := Some "qa-quality"; RosterEntry.name := Some "Old name";
        RosterEntry.nickname := None; RosterEntry.title := None;
        RosterEntry.model := None |});
    (at_second 301,
     {| RosterEntry.id := Some ""; RosterEntry.name := Some "blank";
        RosterEntry.nickname := None; RosterEntry.title := None;
        RosterEntry.model := None |});
    (at_second 302,
     {| RosterEntry.id := Some "qa-quality"; RosterEntry.name := None;
        RosterEntry.nickname := Some "QA"; RosterEntry.title := None;
        RosterEntry.model := Some "m2" |}) ].

(** [queue_db] with a stored counter that disagrees with the live count. *)
Definition miscounted_db : Database :=
  {| agent_tasks := agent_tasks queue_db;
     agents := alter (set_active_tasks (at_second 9) 7) "qa-quality"
                 (agents queue_db) |}.


(** * Properties *)

(** ** Queries over the task table *)

Section TaskTable.
Implicit Types (rows : list AgentTask.t) (r : AgentTask.t) (p : AgentTask.t → bool).

Lemma select_nil p : select p [] = [].
Proof. reflexivity. Qed.

Lemma select_cons p r rows :
  select p (r :: rows) = if p r then r :: select p rows else select p rows.
Proof.
  unfold select. rewrite filter_cons.
  destruct (p r); case_decide; congruence.
Qed.

Lemma select_app p rows1 rows2 :
  select p (rows1 ++ rows2) = select p rows1 ++ select p rows2.
Proof. unfold select. apply filter_app. Qed.

Lemma elem_of_select p r rows : r ∈ select p rows ↔ p r = true ∧ r ∈ rows.
Proof. unfold select. by rewrite list_elem_of_filter. Qed.

Lemma has_id_true task_id r : has_id task_id r = true ↔ AgentTask.id r = task_id.
Proof. unfold has_id. apply bool_decide_eq_true. Qed.

Lemma has_id_false task_id r : has_id task_id r = false ↔ AgentTask.id r ≠ task_id.
Proof. unfold has_id. apply bool_decide_eq_false. Qed.

Lemma fetch_task_Some task_id rows r :
  fetch_task task_id rows = Some r → r ∈ rows ∧ AgentTask.id r = task_id.
Proof.
  unfold fetch_task. intros Hhd.
  assert (Hin : r ∈ select (has_id task_id) rows).
  { destruct (select (has_id task_id) rows); simplify_eq/=. left. }
  apply elem_of_select in Hin as [Hid Hin]. split; [done|].
  by apply has_id_true.
Qed.

Lemma fetch_task_None task_id rows :
  fetch_task task_id rows = None ↔ ∀ r, r ∈ rows → AgentTask.id r ≠ task_id.
Proof.
  unfold fetch_task. split.
  - intros Hhd r Hin Hid.
    assert (Hsel : r ∈ select (has_id task_id) rows).
    { apply elem_of_select. split; [|done]. by apply has_id_true. }
    destruct (select (has_id task_id) rows); [by apply elem_of_nil in Hsel | done].
  - intros Hall. destruct (select (has_id task_id) rows) as [|r l] eqn:E; [done|].
    assert (Hsel : r ∈ select (has_id task_id) rows) by (rewrite E; left).
    apply elem_of_select in Hsel as [Hid Hin].
    apply has_id_true in Hid. by destruct (Hall r Hin).
Qed.

Lemma fetch_task_cons task_id r rows :
  fetch_task task_id (r :: rows) =
  if has_id task_id r then Some r else fetch_task task_id rows.
Proof. unfold fetch_task. rewrite select_cons. by destruct (has_id task_id r). Qed.

Lemma fetch_task_app_fresh task_id rows r :
  fetch_task task_id rows = None → AgentTask.id r = task_id →
  fetch_task task_id (rows ++ [r]) = Some r.
Proof.
  intros Hnone Hid. induction rows as [|r0 rows IH]; simpl.
  - rewrite fetch_task_cons. apply has_id_true in Hid. by rewrite Hid.
  - rewrite fetch_task_cons in Hnone |- *.
    destruct (has_id task_id r0); [done | by apply IH].
Qed.

Lemma fetch_task_app_other task_id rows r :
  AgentTask.id r ≠ task_id →
  fetch_task task_id (rows ++ [r]) = fetch_task task_id rows.
Proof.
  intros Hid. induction rows as [|r0 rows IH]; simpl.
  - rewrite fetch_task_cons. apply has_id_false in Hid. by rewrite Hid.
  - rewrite !fetch_task_cons. by destruct (has_id task_id r0).
Qed.

(** An UPDATE that keeps the key column fetches the updated row. *)
Lemma fetch_task_update task_id task_id' (f : AgentTask.t → AgentTask.t) rows :
  (∀ r, AgentTask.id (f r) = AgentTask.id r) →
  fetch_task task_id (update_where_id task_id' f rows) =
  (λ r, if has_id task_id' r then f r else r) <$> fetch_task task_id rows.
Proof.
  intros Hf. unfold update_where_id.
  induction rows as [|r rows IH]; [done|].
  rewrite fmap_cons, !fetch_task_cons.
  assert (Hsame : has_id task_id (if has_id task_id' r then f r else r)
                  = has_id task_id r).
  { unfold has_id. destruct (bool_decide (AgentTask.id r = task_id')); [|done].
    by rewrite Hf. }
  rewrite Hsame. by destruct (has_id task_id r).
Qed.

Lemma update_where_id_ids task_id (f : AgentTask.t → AgentTask.t) rows :
  (∀ r, AgentTask.id (f r) = AgentTask.id r) →
  AgentTask.id <$> update_where_id task_id f rows = AgentTask.id <$> rows.
Proof.
  intros Hf. unfold update_where_id. rewrite <- list_fmap_compose.
  apply list_fmap_ext. intros i r _. simpl.
  destruct (has_id task_id r); [apply Hf | done].
Qed.

End TaskTable.

(** ** The ORDER BY relation *)

Global Instance order_le_total : Total order_le.
Proof. intros r1 r2. unfold order_le. lia. Qed.

Global Instance order_le_trans : Transitive order_le.
Proof. intros r1 r2 r3. unfold order_le. lia. Qed.

Lemma order_le_refl r : order_le r r.
Proof. unfold order_le. lia. Qed.

Lemma order_by_perm rows : order_by rows ≡ₚ rows.
Proof. apply merge_sort_Permutation. Qed.

Lemma head_order_by_None rows : head (order_by rows) = None ↔ rows = [].
Proof.
  split.
  - intros Hhd. destruct (order_by rows) eqn:E; [|done].
    apply Permutation_nil_r. rewrite <- E. symmetry. apply order_by_perm.
  - intros ->. reflexivity.
Qed.

(** [LIMIT 1] after [ORDER BY]: a row of the input that no row precedes. *)
Lemma head_order_by_Some rows r :
  head (order_by rows) = Some r →
  r ∈ rows ∧ ∀ r', r' ∈ rows → order_le r r'.
Proof.
  intros Hhd.
  pose proof (StronglySorted_merge_sort order_le rows) as Hsorted.
  pose proof (order_by_perm rows) as Hperm.
  unfold order_by in *.
  destruct (merge_sort order_le rows) as [|r0 tl]; simplify_eq/=.
  split.
  - rewrite <- Hperm. left.
  - intros r' Hin. rewrite <- Hperm in Hin.
    apply StronglySorted_inv in Hsorted as [_ Hall].
    apply elem_of_cons in Hin as [->|Hin]; [apply order_le_refl|].
    rewrite Forall_forall in Hall. by apply Hall.
Qed.

(** ** [get_next_task] *)

Lemma stored_active_alter db clk n agent_id ag :
  agents db !! agent_id = Some ag →
  Agent.active_tasks <$> alter (set_active_tasks clk n) agent_id (agents db) !! agent_id
  = Some n.
Proof. intros Hag. by rewrite lookup_alter_eq, Hag. Qed.

Lemma pending_of_true a r :
  pending_of a r = true ↔ AgentTask.agent_id r = a ∧ AgentTask.status r = "pending".
Proof.
  unfold pending_of. rewrite andb_true_iff, !bool_decide_eq_true. done.
Qed.

(** C10. For an agent id with no row in the agents table, [get_next_task]
    raises (the [max_concurrent_tasks] lookup subscripts [None]) and commits
    nothing; whenever it returns none, the agent is known and either at
    capacity or without a pending task. *)
Theorem get_next_task_unknown_agent_raises db clk agent_id :
  (agents db !! agent_id = None →
   get_next_task db clk agent_id = (db, Raise TypeError)) ∧
  (snd (get_next_task db clk agent_id) = Return None →
   ∃ ag, agents db !! agent_id = Some ag ∧
         fst (get_next_task db clk agent_id) = db ∧
         (Agent.max_concurrent_tasks ag ≤ live_active db agent_id ∨
          select (pending_of agent_id) (agent_tasks db) = [])).
Proof.
  unfold get_next_task, live_active. split.
  - by intros ->.
  - destruct (agents db !! agent_id) as [ag|]; [|done].
    intros Hret. exists ag. split; [done|].
    destruct (Z.leb_spec (Agent.max_concurrent_tasks ag)
                (count (active_of agent_id) (agent_tasks db))) as [Hcap|Hcap].
    + split; [done | by left].
    + destruct (head (order_by (select (pending_of agent_id) (agent_tasks db))))
        as [row|] eqn:Hhd.
      * simpl in Hret. destruct (returned_task row); discriminate.
      * split; [done|]. right. by apply head_order_by_None.
Qed.

(** C2, as the code has it. For an agent with a row in the store:
    at capacity, [get_next_task] returns none and changes nothing; below
    capacity with no pending task, likewise; otherwise it picks a pending
    task of the agent that no other pending task of the agent precedes in
    (priority, assigned_at) order, marks it 'assigned', and stores
    live count + 1 in the agent's [active_tasks], which is the old counter
    plus one exactly when the counter agreed with the live count. The picked
    task is what the call returns when the row's [actual_duration] is NULL
    or 0. *)
Theorem get_next_task_spec db clk agent_id ag :
  agents db !! agent_id = Some ag →
  let n := live_active db agent_id in
  let pending := select (pending_of agent_id) (agent_tasks db) in
  let db' := fst (get_next_task db clk agent_id) in
  (Agent.max_concurrent_tasks ag ≤ n →
   get_next_task db clk agent_id = (db, Return None)) ∧
  (n < Agent.max_concurrent_tasks ag → pending = [] →
   get_next_task db clk agent_id = (db, Return None)) ∧
  (n < Agent.max_concurrent_tasks ag → pending ≠ [] →
   ∃ row,
     row ∈ agent_tasks db ∧
     AgentTask.agent_id row = agent_id ∧
     AgentTask.status row = "pending" ∧
     (∀ r, r ∈ agent_tasks db → AgentTask.agent_id r = agent_id →
           AgentTask.status r = "pending" → order_le row r) ∧
     db' = {| agent_tasks :=
                update_where_id (AgentTask.id row) (mark_assigned clk)
                  (agent_tasks db);
              agents := alter (set_active_tasks clk (n + 1)) agent_id
                          (agents db) |} ∧
     status_of db' (AgentTask.id row) = Some "assigned" ∧
     stored_active db' agent_id = Some (n + 1) ∧
     (Agent.active_tasks ag = n →
      stored_active db' agent_id = Some (Agent.active_tasks ag + 1)) ∧
     (AgentTask.actual_duration row = None ∨
      AgentTask.actual_duration row = Some 0 →
      ∃ task,
        snd (get_next_task db clk agent_id) = Return (Some task) ∧
        TaskObject.id task = AgentTask.id row ∧
        TaskObject.agent_id task = agent_id ∧
        TaskObject.priority task = AgentTask.priority row ∧
        TaskObject.status task = "assigned")).
Proof.
  intros Hag n pending db'. subst db'.
  unfold get_next_task. fold (live_active db agent_id). fold n. fold pending.
  rewrite Hag. split; [|split].
  - intros Hcap. by rewrite (proj2 (Z.leb_le _ _) Hcap).
  - intros Hcap Hnil. rewrite (proj2 (Z.leb_gt _ _) Hcap), Hnil. done.
  - intros Hcap Hsome. rewrite (proj2 (Z.leb_gt _ _) Hcap).
    destruct (head (order_by pending)) as [row|] eqn:Hhd;
      [|by apply head_order_by_None in Hhd].
    apply head_order_by_Some in Hhd as [Hin Hmin].
    apply elem_of_select in Hin as [Hp Hin].
    apply pending_of_true in Hp as [Hagent Hstatus].
    exists row. simpl. repeat split; try done.
    + intros r Hr Ha Hs. apply Hmin, elem_of_select.
      split; [by apply pending_of_true | done].
    + unfold status_of. simpl.
      rewrite fetch_task_update by done.
      destruct (fetch_task (AgentTask.id row) (agent_tasks db)) as [r0|] eqn:Hf.
      * apply fetch_task_Some in Hf as [_ Hid]. simpl.
        apply has_id_true in Hid. by rewrite Hid.
      * exfalso. eapply fetch_task_None; eauto.
    + unfold stored_active. simpl. by apply (stored_active_alter _ _ _ _ ag).
    + intros Heq. unfold stored_active. simpl. rewrite Heq.
      by apply (stored_active_alter _ _ _ _ ag).
    + intros Hdur. unfold returned_task.
      destruct Hdur as [-> | ->]; simpl; eexists; (split; [reflexivity|]);
        simpl; by rewrite ?Hagent.
Qed.

Lemma get_next_task_spec_witness :
  agents queue_db !! "qa-quality" = Some (qa_row (Some 2000000)) ∧
  status_of (fst (get_next_task queue_db (at_second 3) "qa-quality")) "t2"
  = Some "assigned" ∧
  stored_active (fst (get_next_task queue_db (at_second 3) "qa-quality"))
    "qa-quality" = Some 1.
Proof.
  assert (Hag : agents queue_db !! "qa-quality" = Some (qa_row (Some 2000000)))
    by (vm_compute; reflexivity).
  split; [exact Hag|].
  destruct (get_next_task_spec queue_db (at_second 3) "qa-quality" _ Hag)
    as (_ & _ & Hpick).
  assert (Hcap : live_active queue_db "qa-quality"
                 < Agent.max_concurrent_tasks (qa_row (Some 2000000)))
    by (vm_compute; reflexivity).
  assert (Hpending : select (pending_of "qa-quality") (agent_tasks queue_db) ≠ [])
    by (vm_compute; discriminate).
  destruct (Hpick Hcap Hpending)
    as (row & Hin & _ & _ & Hmin & _ & Hst & Hcnt & _).
  assert (Hid : AgentTask.id row = "t2").
  { assert (Hle : order_le row (inserted_row (qa_task "t2" 1 2))).
    { apply Hmin; [|reflexivity|reflexivity].
      vm_compute. right. left. }
    vm_compute in Hin.
    apply elem_of_cons in Hin as [-> | Hin];
      [unfold order_le in Hle; simpl in Hle; lia|].
    apply elem_of_cons in Hin as [-> | Hin]; [reflexivity|].
    by apply elem_of_nil in Hin. }
  rewrite Hid in Hst. split; [exact Hst | exact Hcnt].
Defined.

(** C2, the claim as stated fails: with one task 'assigned' through the
    notifier (stored counter still 0) and one pending row, the call returns
    the pending task and the stored counter goes from 0 to 2. *)
Lemma get_next_task_counter_not_incremented :
  let out := get_next_task drift_db (at_second 3) "qa-quality" in
  is_Some (agents drift_db !! "qa-quality") ∧
  live_active drift_db "qa-quality" = 1 ∧
  (∃ task, snd out = Return (Some task) ∧ TaskObject.id task = "t2") ∧
  stored_active drift_db "qa-quality" = Some 0 ∧
  stored_active (fst out) "qa-quality" = Some 2 ∧
  stored_active (fst out) "qa-quality"
  ≠ Z.succ <$> stored_active drift_db "qa-quality".
Proof.
  vm_compute. repeat split; try reflexivity; try discriminate.
  - by eexists.
  - eexists. split; reflexivity.
Qed.

(** ** [update_task_status] *)

Lemma set_task_status_id clk status progress result duration r :
  AgentTask.id (set_task_status clk status progress result duration r)
  = AgentTask.id r.
Proof. reflexivity. Qed.

Lemma fetch_task_update_same task_id (f : AgentTask.t → AgentTask.t) rows row :
  (∀ r, AgentTask.id (f r) = AgentTask.id r) →
  fetch_task task_id rows = Some row →
  fetch_task task_id (update_where_id task_id f rows) = Some (f row).
Proof.
  intros Hf Hrow. rewrite fetch_task_update, Hrow by done. simpl.
  apply fetch_task_Some in Hrow as [_ Hid]. apply has_id_true in Hid.
  by rewrite Hid.
Qed.

Lemma fetch_task_update_other task_id task_id' (f : AgentTask.t → AgentTask.t) rows :
  (∀ r, AgentTask.id (f r) = AgentTask.id r) →
  task_id ≠ task_id' →
  fetch_task task_id (update_where_id task_id' f rows) = fetch_task task_id rows.
Proof.
  intros Hf Hne. rewrite fetch_task_update by done.
  destruct (fetch_task task_id rows) as [r|] eqn:Hr; [|done]. simpl.
  apply fetch_task_Some in Hr as [_ Hid].
  assert (Hno : has_id task_id' r = false) by (apply has_id_false; congruence).
  by rewrite Hno.
Qed.

(** The terminal transition on an existing task, spelled out. *)
Lemma update_task_status_terminal db clk task_id status progress result row :
  is_terminal status = true →
  fetch_task task_id (agent_tasks db) = Some row →
  let duration :=
    timedelta_seconds (datetime_now clk) (AgentTask.assigned_at row) in
  update_task_status db clk task_id status progress result =
  ({| agent_tasks :=
        update_where_id task_id
          (set_task_status clk status progress result duration) (agent_tasks db);
      agents := alter (add_stats clk status duration) (AgentTask.agent_id row)
                  (agents db) |},
   Return ()).
Proof. intros Hterm Hrow. unfold update_task_status. by rewrite Hterm, Hrow. Qed.

(** Inside one day, and with the clock not behind the assignment time,
    [.seconds] is the whole elapsed time. *)
Lemma timedelta_seconds_within_day a b :
  0 ≤ a - b < 86400 * 1000000 →
  timedelta_seconds a b = elapsed_whole_seconds a b.
Proof.
  intros Hgap. unfold timedelta_seconds, elapsed_whole_seconds.
  apply Z.mod_small. split.
  - apply Z.div_pos; lia.
  - apply Z.div_lt_upper_bound; lia.
Qed.

(** The scenario of the design document: assigned at T - 120 s, completed at
    T, recorded duration 120. *)
Example actual_duration_two_minutes :
  AgentTask.actual_duration <$> fetch_task "t1" (agent_tasks done_db)
  = Some (Some 120) ∧
  Agent.total_task_time <$> agents done_db !! "qa-quality" = Some 120 ∧
  Agent.completed_tasks <$> agents done_db !! "qa-quality" = Some 1.
Proof. vm_compute. done. Qed.

(** C3. A task assigned at second 0 and completed 25 hours later: the whole
    elapsed time is 90000 s, yet the recorded [actual_duration] and the
    increment of the agent's [total_task_time] are both 3600, because
    [.seconds] leaves out the days of the difference. The one-step increment
    of [completed_tasks] is as claimed. *)
Theorem actual_duration_drops_whole_days :
  let clk := at_second 90000 in
  let db' := fst (update_task_status working_db clk "t1" "completed"
                    (Some 100%Q) (Some "done")) in
  AgentTask.assigned_at <$> fetch_task "t1" (agent_tasks working_db) = Some 0 ∧
  elapsed_whole_seconds (datetime_now clk) 0 = 90000 ∧
  AgentTask.actual_duration <$> fetch_task "t1" (agent_tasks db')
  = Some (Some 3600) ∧
  Agent.total_task_time <$> agents working_db !! "qa-quality" = Some 0 ∧
  Agent.total_task_time <$> agents db' !! "qa-quality" = Some 3600 ∧
  Agent.completed_tasks <$> agents working_db !! "qa-quality" = Some 0 ∧
  Agent.completed_tasks <$> agents db' !! "qa-quality" = Some 1.
Proof. vm_compute. done. Qed.

(** C8, the claim as stated fails: completing the same task a second time,
    one minute after the first, counts it twice. *)
Lemma terminal_transition_counts_twice :
  let again := fst (update_task_status done_db (at_second 180) "t1" "completed"
                      (Some 100%Q) (Some "done")) in
  Agent.completed_tasks <$> agents done_db !! "qa-quality" = Some 1 ∧
  Agent.total_task_time <$> agents done_db !! "qa-quality" = Some 120 ∧
  Agent.completed_tasks <$> agents again !! "qa-quality" = Some 2 ∧
  Agent.total_task_time <$> agents again !! "qa-quality" = Some 300.
Proof. vm_compute. done. Qed.

(** C8, as the code has it. The store has no guard on the old status: each
    terminal transition of an existing task whose agent has a row adds one
    to that agent's [completed_tasks] or [failed_tasks] (by the status
    passed) and adds the duration computed at that call to
    [total_task_time], so a second invocation counts a second time. *)
Theorem terminal_transition_twice
    db clk1 clk2 task_id s1 s2 p1 p2 res1 res2 row ag :
  is_terminal s1 = true → is_terminal s2 = true →
  fetch_task task_id (agent_tasks db) = Some row →
  agents db !! AgentTask.agent_id row = Some ag →
  let d1 := timedelta_seconds (datetime_now clk1) (AgentTask.assigned_at row) in
  let d2 := timedelta_seconds (datetime_now clk2) (AgentTask.assigned_at row) in
  let db1 := fst (update_task_status db clk1 task_id s1 p1 res1) in
  let db2 := fst (update_task_status db1 clk2 task_id s2 p2 res2) in
  ∃ ag1 ag2,
    agents db1 !! AgentTask.agent_id row = Some ag1 ∧
    agents db2 !! AgentTask.agent_id row = Some ag2 ∧
    ag1 = add_stats clk1 s1 d1 ag ∧
    ag2 = add_stats clk2 s2 d2 ag1 ∧
    Agent.completed_tasks ag2 + Agent.failed_tasks ag2
    = Agent.completed_tasks ag + Agent.failed_tasks ag + 2 ∧
    Agent.total_task_time ag2 = Agent.total_task_time ag + d1 + d2 ∧
    (s1 = "completed" → s2 = "completed" →
     Agent.completed_tasks ag1 = Agent.completed_tasks ag + 1 ∧
     Agent.completed_tasks ag2 = Agent.completed_tasks ag + 2) ∧
    (s1 = "failed" → s2 = "failed" →
     Agent.failed_tasks ag1 = Agent.failed_tasks ag + 1 ∧
     Agent.failed_tasks ag2 = Agent.failed_tasks ag + 2).
Proof.
  intros Ht1 Ht2 Hrow Hag d1 d2 db1 db2.
  assert (Hdb1 : db1 =
    {| agent_tasks := update_where_id task_id
                        (set_task_status clk1 s1 p1 res1 d1) (agent_tasks db);
       agents := alter (add_stats clk1 s1 d1) (AgentTask.agent_id row)
                   (agents db) |}).
  { subst db1. by rewrite (update_task_status_terminal _ _ _ _ _ _ row). }
  assert (Hrow1 : fetch_task task_id (agent_tasks db1)
                  = Some (set_task_status clk1 s1 p1 res1 d1 row)).
  { rewrite Hdb1. simpl. by apply fetch_task_update_same. }
  assert (Hdb2 : agents db2 =
    alter (add_stats clk2 s2 d2) (AgentTask.agent_id row) (agents db1)).
  { subst db2.
    by rewrite (update_task_status_terminal _ _ _ _ _ _ _ Ht2 Hrow1). }
  exists (add_stats clk1 s1 d1 ag), (add_stats clk2 s2 d2 (add_stats clk1 s1 d1 ag)).
  assert (Hag1 : agents db1 !! AgentTask.agent_id row
                 = Some (add_stats clk1 s1 d1 ag)).
  { rewrite Hdb1. simpl. by rewrite lookup_alter_eq, Hag. }
  split; [done|]. split.
  { by rewrite Hdb2, lookup_alter_eq, Hag1. }
  split; [done|]. split; [done|].
  clearbody d1 d2. clear. unfold add_stats. simpl.
  split; [repeat case_bool_decide; lia|].
  split; [lia|].
  split; intros -> ->; simpl; lia.
Qed.

Lemma terminal_transition_twice_witness :
  is_terminal "completed" = true ∧
  fetch_task "t1" (agent_tasks working_db)
  = Some (set_task_status (at_second 1) "working" (Some 10%Q) None 0
            (mark_assigned (at_second 1) (inserted_row (qa_task "t1" 1 0)))) ∧
  agents working_db !! "qa-quality"
  = Some (set_active_tasks (at_second 1) 1 (qa_row (Some 0))) ∧
  Agent.completed_tasks
    <$> agents (fst (update_task_status
                       (fst (update_task_status working_db (at_second 120) "t1"
                               "completed" (Some 100%Q) (Some "done")))
                       (at_second 180) "t1" "completed" (Some 100%Q)
                       (Some "done"))) !! "qa-quality"
  = Some 2.
Proof.
  assert (Hrow : fetch_task "t1" (agent_tasks working_db)
    = Some (set_task_status (at_second 1) "working" (Some 10%Q) None 0
              (mark_assigned (at_second 1) (inserted_row (qa_task "t1" 1 0)))))
    by (vm_compute; reflexivity).
  assert (Hag : agents working_db !! "qa-quality"
    = Some (set_active_tasks (at_second 1) 1 (qa_row (Some 0))))
    by (vm_compute; reflexivity).
  split; [reflexivity|]. split; [exact Hrow|]. split; [exact Hag|].
  destruct (terminal_transition_twice working_db (at_second 120) (at_second 180)
              "t1" "completed" "completed" (Some 100%Q) (Some 100%Q)
              (Some "done") (Some "done") _ _ eq_refl eq_refl Hrow Hag)
    as (ag1 & ag2 & _ & Hag2 & _ & _ & _ & _ & Hcompleted & _).
  destruct (Hcompleted eq_refl eq_refl) as [_ Htwo].
  change (AgentTask.agent_id _) with "qa-quality" in Hag2.
  rewrite Hag2. simpl. by rewrite Htwo.
Defined.

(** C9, the claim as stated fails: the task of [working_db] was started at
    second 1; a progress update at second 30 moves [started_at] to second
    30. *)
Lemma progress_update_restamps_started_at :
  let db' := fst (update_task_status working_db (at_second 30) "t1" "working"
                    (Some 20%Q) None) in
  AgentTask.status <$> fetch_task "t1" (agent_tasks working_db)
  = Some "working" ∧
  AgentTask.started_at <$> fetch_task "t1" (agent_tasks working_db)
  = Some (Some 1000000) ∧
  AgentTask.started_at <$> fetch_task "t1" (agent_tasks db')
  = Some (Some 30000000).
Proof. vm_compute. done. Qed.

(** C9, as the code has it. A progress update of a task that is already
    'working' rewrites [progress], [last_updated] and also [started_at]
    (both stamps take the current time); every other column of the task,
    every other task and the agents table are unchanged. *)
Theorem progress_update_frame db clk task_id (p : Q) row :
  fetch_task task_id (agent_tasks db) = Some row →
  AgentTask.status row = "working" →
  let out := update_task_status db clk task_id "working" (Some p) None in
  snd out = Return () ∧
  agents (fst out) = agents db ∧
  fetch_task task_id (agent_tasks (fst out)) =
    Some {| AgentTask.id := AgentTask.id row;
            AgentTask.agent_id := AgentTask.agent_id row;
            AgentTask.title := AgentTask.title row;
            AgentTask.description := AgentTask.description row;
            AgentTask.priority := AgentTask.priority row;
            AgentTask.status := AgentTask.status row;
            AgentTask.progress := p;
            AgentTask.assigned_at := AgentTask.assigned_at row;
            AgentTask.started_at := Some (CURRENT_TIMESTAMP clk);
            AgentTask.completed_at := AgentTask.completed_at row;
            AgentTask.estimated_duration := AgentTask.estimated_duration row;
            AgentTask.actual_duration := AgentTask.actual_duration row;
            AgentTask.dependencies := AgentTask.dependencies row;
            AgentTask.result := AgentTask.result row;
            AgentTask.error_message := AgentTask.error_message row;
            AgentTask.created_by := AgentTask.created_by row;
            AgentTask.last_updated := CURRENT_TIMESTAMP clk |} ∧
  (∀ other, other ≠ task_id →
     fetch_task other (agent_tasks (fst out)) = fetch_task other (agent_tasks db)).
Proof.
  intros Hrow Hstatus out. subst out. unfold update_task_status. simpl.
  split; [done|]. split; [done|]. split.
  - rewrite (fetch_task_update_same _ _ _ row) by done.
    unfold set_task_status. simpl. by rewrite Hstatus.
  - intros other Hne. by apply fetch_task_update_other.
Qed.

Lemma progress_update_frame_witness :
  fetch_task "t1" (agent_tasks working_db)
  = Some (set_task_status (at_second 1) "working" (Some 10%Q) None 0
            (mark_assigned (at_second 1) (inserted_row (qa_task "t1" 1 0)))) ∧
  AgentTask.progress
    <$> fetch_task "t1"
          (agent_tasks (fst (update_task_status working_db (at_second 30) "t1"
                               "working" (Some 20%Q) None)))
  = Some 20%Q.
Proof.
  assert (Hrow : fetch_task "t1" (agent_tasks working_db)
    = Some (set_task_status (at_second 1) "working" (Some 10%Q) None 0
              (mark_assigned (at_second 1) (inserted_row (qa_task "t1" 1 0)))))
    by (vm_compute; reflexivity).
  split; [exact Hrow|].
  destruct (progress_update_frame working_db (at_second 30) "t1" 20%Q _ Hrow
              eq_refl) as (_ & _ & Hnew & _).
  by rewrite Hnew.
Defined.

(** ** Terminal states *)

Lemma fetch_task_unique rows r :
  NoDup (AgentTask.id <$> rows) → r ∈ rows →
  fetch_task (AgentTask.id r) rows = Some r.
Proof.
  induction rows as [|r0 rows IH]; intros Hnd Hin.
  - by apply elem_of_nil in Hin.
  - rewrite fmap_cons in Hnd. apply NoDup_cons in Hnd as [Hfresh Hnd].
    rewrite fetch_task_cons.
    apply elem_of_cons in Hin as [-> | Hin].
    + by rewrite (proj2 (has_id_true _ _) eq_refl).
    + destruct (has_id (AgentTask.id r) r0) eqn:Hid; [|by apply IH].
      apply has_id_true in Hid. exfalso. apply Hfresh. rewrite Hid.
      by apply list_elem_of_fmap_2.
Qed.

Lemma unique_ids_update db task_id (f : AgentTask.t → AgentTask.t) ags :
  (∀ r, AgentTask.id (f r) = AgentTask.id r) →
  unique_ids db →
  unique_ids {| agent_tasks := update_where_id task_id f (agent_tasks db);
                agents := ags |}.
Proof.
  unfold unique_ids. simpl. intros Hf Hnd. by rewrite update_where_id_ids.
Qed.

(** Every operation keeps the primary key. *)
Lemma step_unique_ids db call : unique_ids db → unique_ids (step db call).
Proof.
  intros Hnd. destruct call as [clk [task | a t | a | t s p res]]; simpl.
  - unfold create_task.
    destruct (fetch_task (AgentTask.id task) (agent_tasks db)) eqn:Hf; [done|].
    unfold unique_ids. simpl. rewrite fmap_app. apply NoDup_app.
    split; [done|]. split; [|apply NoDup_singleton].
    intros x Hx Hx'. apply list_elem_of_fmap in Hx as (r & -> & Hr).
    apply list_elem_of_singleton in Hx'. simpl in Hx'.
    eapply fetch_task_None; eauto.
  - unfold notify_agent, update_task_status. simpl. by apply unique_ids_update.
  - unfold get_next_task. destruct (agents db !! a); [|done].
    destruct (_ <=? _); [done|].
    destruct (head _); [|done]. simpl. by apply unique_ids_update.
  - unfold update_task_status. destruct (is_terminal s).
    + destruct (fetch_task t (agent_tasks db)); [|done]. simpl.
      by apply unique_ids_update.
    + simpl. by apply unique_ids_update.
Qed.

(** An operation that does not address a terminal task leaves its status. *)
Lemma step_keeps_terminal db call task_id s :
  unique_ids db → status_of db task_id = Some s → is_terminal s = true →
  ¬ addresses task_id call.2 →
  status_of (step db call) task_id = Some s.
Proof.
  intros Hnd Hst Hterm Hnot. unfold status_of in *.
  destruct call as [clk [task | a t | a | t s' p res]]; simpl in *.
  - unfold create_task.
    destruct (fetch_task (AgentTask.id task) (agent_tasks db)) eqn:Hf; [done|].
    simpl. rewrite fetch_task_app_other; [done|]. simpl.
    intros Heq. rewrite Heq in Hf. by rewrite Hf in Hst.
  - unfold notify_agent, update_task_status. simpl.
    rewrite fetch_task_update_other; [done|done|]. by intros ->.
  - unfold get_next_task. destruct (agents db !! a); [|done].
    destruct (_ <=? _); [done|].
    destruct (head _) as [row|] eqn:Hhd; [|done]. simpl.
    apply head_order_by_Some in Hhd as [Hin _].
    apply elem_of_select in Hin as [Hp Hin].
    apply pending_of_true in Hp as [_ Hpending].
    rewrite fetch_task_update_other; [done|done|].
    intros ->. rewrite (fetch_task_unique _ _ Hnd Hin) in Hst.
    simpl in Hst. rewrite Hpending in Hst. by simplify_eq.
  - assert (Hne : task_id ≠ t) by (by intros ->).
    unfold update_task_status. destruct (is_terminal s').
    + destruct (fetch_task t (agent_tasks db)); [|done]. simpl.
      by rewrite fetch_task_update_other.
    + simpl. by rewrite fetch_task_update_other.
Qed.

(** C7, the claim as stated fails: [update_task_status] writes whatever
    status it is given, so a completed task goes back to 'working'. *)
Lemma terminal_status_overwritten :
  status_of done_db "t1" = Some "completed" ∧
  status_of (fst (update_task_status done_db (at_second 200) "t1" "working"
                    None None)) "t1" = Some "working".
Proof. vm_compute. done. Qed.

(** C7, as the code has it. Once a task is 'completed' or 'failed', no
    sequence of [create_task], [get_next_task] and [update_task_status]
    calls that does not address that task changes its status; an
    [update_task_status] that addresses it writes the status passed,
    whatever the old one was. *)
Theorem terminal_status_kept db task_id s calls :
  unique_ids db →
  status_of db task_id = Some s →
  is_terminal s = true →
  Forall (λ call, ¬ addresses task_id call.2) calls →
  status_of (run db calls) task_id = Some s ∧
  (∀ clk s' p res,
     status_of (fst (update_task_status db clk task_id s' p res)) task_id
     = Some s').
Proof.
  intros Hnd Hst Hterm Hcalls. split.
  - unfold run. revert db Hnd Hst.
    induction Hcalls as [|call calls Hcall _ IH]; intros db Hnd Hst; [done|].
    simpl. apply IH.
    + by apply step_unique_ids.
    + by apply step_keeps_terminal.
  - intros clk s' p res. unfold status_of in *.
    destruct (fetch_task task_id (agent_tasks db)) as [row|] eqn:Hrow; [|done].
    unfold update_task_status. destruct (is_terminal s'); rewrite ?Hrow; simpl;
      by rewrite (fetch_task_update_same _ _ _ row).
Qed.

Lemma terminal_status_kept_witness :
  unique_ids done_db ∧
  status_of done_db "t1" = Some "completed" ∧
  is_terminal "completed" = true ∧
  status_of
    (run done_db
       [ (at_second 130, OpCreateTask (qa_task "t2" 1 130));
         (at_second 131, OpGetNextTask "qa-quality");
         (at_second 132, OpUpdateTaskStatus "t2" "failed" None (Some "boom")) ])
    "t1" = Some "completed".
Proof.
  assert (Hnd : unique_ids done_db).
  { unfold unique_ids. vm_compute. apply NoDup_singleton. }
  split; [exact Hnd|]. split; [reflexivity|]. split; [reflexivity|].
  apply (terminal_status_kept done_db "t1" "completed" _ Hnd eq_refl eq_refl).
  repeat constructor; simpl; try tauto; discriminate.
Defined.

(** ** The stored counter *)

(** The scheduler's pull path writes the live count into the counter. *)
Example active_tasks_after_pull :
  stored_active working_db "qa-quality" = Some 1 ∧
  live_active working_db "qa-quality" = 1.
Proof. vm_compute. done. Qed.

(** C1. The stored counter does not follow the live count. After
    [create_task] and the notifier the task is 'assigned' while the counter
    is still 0; after a pulled task has been completed the counter is still
    1 while no task is active. Only [get_next_task] writes the counter. *)
Theorem active_tasks_counter_drifts :
  (status_of notified_db "t1" = Some "assigned" ∧
   live_active notified_db "qa-quality" = 1 ∧
   stored_active notified_db "qa-quality" = Some 0) ∧
  (status_of done_db "t1" = Some "completed" ∧
   live_active done_db "qa-quality" = 0 ∧
   stored_active done_db "qa-quality" = Some 1).
Proof. vm_compute. done. Qed.

(** ** [add_agent] *)

Lemma add_agent_lookup db clk cfg :
  ∃ ag, agents (add_agent db clk cfg) !! AgentConfig.id cfg = Some ag ∧
        Agent.active_tasks ag = 0 ∧ Agent.completed_tasks ag = 0 ∧
        Agent.failed_tasks ag = 0 ∧ Agent.total_task_time ag = 0 ∧
        Agent.last_heartbeat ag = None.
Proof.
  unfold add_agent. simpl. eexists. rewrite lookup_insert_eq.
  split; [reflexivity|]. done.
Qed.

(** C6. Re-running the upsert with the configuration the row was created
    from, after the agent has completed a task: the replaced row has
    [active_tasks], [completed_tasks] and [total_task_time] back at 0 and no
    heartbeat. *)
Theorem add_agent_resets_counters :
  let before := agents done_db !! "qa-quality" in
  let after := agents (add_agent done_db (at_second 300) qa_config)
                 !! "qa-quality" in
  agents roster_db !! "qa-quality" = Some (qa_row None) ∧
  Agent.active_tasks <$> before = Some 1 ∧
  Agent.completed_tasks <$> before = Some 1 ∧
  Agent.total_task_time <$> before = Some 120 ∧
  Agent.last_heartbeat <$> before = Some (Some 0) ∧
  Agent.active_tasks <$> after = Some 0 ∧
  Agent.completed_tasks <$> after = Some 0 ∧
  Agent.total_task_time <$> after = Some 0 ∧
  Agent.last_heartbeat <$> after = Some None.
Proof. vm_compute. done. Qed.

(** ** [distribute_task] with an explicit agent *)

Lemma create_task_fresh db clk task :
  fetch_task (AgentTask.id task) (agent_tasks db) = None →
  create_task db clk task =
  ({| agent_tasks := agent_tasks db ++ [inserted_row task];
      agents := alter (touch_heartbeat clk) (AgentTask.agent_id task) (agents db) |},
   Return (AgentTask.id task)).
Proof. intros Hfresh. unfold create_task. by rewrite Hfresh. Qed.

(** C5, the claim as stated fails: when [distribute_task] returns, the
    notifier has already run and the stored status is 'assigned'. *)
Lemma explicit_agent_task_not_pending :
  let out := distribute_task roster_db (at_second 1) "t1" "testing" "check"
               "run the checks" 1 (Some "qa-quality") in
  snd out = Return "t1" ∧
  AgentTask.agent_id <$> fetch_task "t1" (agent_tasks (fst out))
  = Some "qa-quality" ∧
  AgentTask.priority <$> fetch_task "t1" (agent_tasks (fst out)) = Some 1 ∧
  status_of (fst out) "t1" = Some "assigned" ∧
  status_of (fst out) "t1" ≠ Some "pending".
Proof. vm_compute. done. Qed.

(** C5, as the code has it. With an explicit, non-empty agent id and a fresh
    task id, [distribute_task] consults neither the agents table nor any
    workload: it inserts the row as 'pending' with that agent id and that
    priority, then the notifier marks it 'assigned'; the stored task has the
    given agent id, status 'assigned' and the given priority when the call
    returns. *)
Theorem distribute_task_explicit_agent
    db clk task_id task_type title description priority a :
  a ≠ "" →
  fetch_task task_id (agent_tasks db) = None →
  let task := new_task clk task_id a task_type title description priority in
  let created := fst (create_task db clk task) in
  let out := distribute_task db clk task_id task_type title description
               priority (Some a) in
  snd out = Return task_id ∧
  fst out = fst (notify_agent created clk a task_id) ∧
  fetch_task task_id (agent_tasks created) = Some (inserted_row task) ∧
  AgentTask.status (inserted_row task) = "pending" ∧
  (∃ row,
     fetch_task task_id (agent_tasks (fst out)) = Some row ∧
     AgentTask.agent_id row = a ∧
     AgentTask.status row = "assigned" ∧
     AgentTask.priority row = priority).
Proof.
  intros Ha Hfresh task created out.
  assert (Hcreate : create_task db clk task =
            ({| agent_tasks := agent_tasks db ++ [inserted_row task];
                agents := alter (touch_heartbeat clk) a (agents db) |},
             Return task_id)) by by apply create_task_fresh.
  assert (Hout : out =
            ({| agent_tasks :=
                  update_where_id task_id
                    (set_task_status clk "assigned" None None 0)
                    (agent_tasks db ++ [inserted_row task]);
                agents := alter (touch_heartbeat clk) a (agents db) |},
             Return task_id)).
  { subst out. unfold distribute_task.
    rewrite (bool_decide_eq_false_2 _ Ha). cbn beta iota zeta.
    rewrite (bool_decide_eq_false_2 _ Ha). fold task. by rewrite Hcreate. }
  assert (Hnew : fetch_task task_id (agent_tasks db ++ [inserted_row task])
                 = Some (inserted_row task)) by by apply fetch_task_app_fresh.
  subst created. rewrite Hout, Hcreate. cbn [fst snd agent_tasks].
  split; [done|]. split; [done|]. split; [done|]. split; [done|].
  eexists. split; [by apply fetch_task_update_same|]. done.
Qed.

Lemma distribute_task_explicit_agent_witness :
  "qa-quality" ≠ "" ∧
  fetch_task "t1" (agent_tasks roster_db) = None ∧
  snd (distribute_task roster_db (at_second 1) "t1" "testing" "check"
         "run the checks" 1 (Some "qa-quality")) = Return "t1".
Proof.
  assert (Ha : "qa-quality" ≠ "") by discriminate.
  split; [exact Ha|]. split; [reflexivity|].
  apply (distribute_task_explicit_agent roster_db (at_second 1) "t1" "testing"
           "check" "run the checks" 1 "qa-quality" Ha eq_refl).
Defined.

(** ** The assignment policy *)

(** The workload's [active_count] is the live count of the store. *)
Lemma workload_active_count db agent_id :
  Z.of_nat (length (filter (λ task, is_active (AgentTask.status task) = true)
                      (get_agent_tasks db agent_id)))
  = live_active db agent_id.
Proof.
  unfold live_active, count, get_agent_tasks, select. f_equal.
  rewrite (Permutation_length
             (filter_Permutation _ _ _ (order_by_perm _))).
  rewrite list_filter_filter. f_equal.
  apply list_filter_iff. intros r. unfold active_of.
  rewrite andb_true_iff, bool_decide_eq_true. tauto.
Qed.

Lemma get_agent_workload_known db clk agent_id ag :
  agents db !! agent_id = Some ag →
  ∃ workload,
    get_agent_workload db clk agent_id = Return workload ∧
    AgentWorkload.active_count workload = live_active db agent_id ∧
    AgentWorkload.max_concurrent workload = Agent.max_concurrent_tasks ag.
Proof.
  intros Hag. unfold get_agent_workload. rewrite Hag.
  eexists. split; [reflexivity|]. simpl. split; [|done].
  apply workload_active_count.
Qed.

Lemma get_agent_workload_unknown db clk agent_id :
  agents db !! agent_id = None →
  ∃ msg, get_agent_workload db clk agent_id = Raise (ValueError msg).
Proof. intros Hag. unfold get_agent_workload. rewrite Hag. by eexists. Qed.

Lemma first_least_skip db done a best :
  ¬ can_take db a → first_least db done best →
  first_least db (done ++ [a]) best.
Proof.
  intros Hno. destruct best as [c|]; simpl.
  - intros (before & after & -> & Hc & Hbefore & Hafter).
    exists before, (after ++ [a]). split; [by rewrite <- app_assoc|].
    split; [done|]. split; [done|].
    intros b Hb Hcan. apply elem_of_app in Hb as [Hb|Hb]; [by apply Hafter|].
    apply list_elem_of_singleton in Hb as ->. done.
  - intros Hnone b Hb. apply elem_of_app in Hb as [Hb|Hb]; [by apply Hnone|].
    by apply list_elem_of_singleton in Hb as ->.
Qed.

Lemma first_least_keep db done a c :
  live_active db c ≤ live_active db a →
  first_least db done (Some c) → first_least db (done ++ [a]) (Some c).
Proof.
  intros Hle (before & after & -> & Hc & Hbefore & Hafter).
  exists before, (after ++ [a]). split; [by rewrite <- app_assoc|].
  split; [done|]. split; [done|].
  intros b Hb Hcan. apply elem_of_app in Hb as [Hb|Hb]; [by apply Hafter|].
  by apply list_elem_of_singleton in Hb as ->.
Qed.

Lemma first_least_replace db done a best :
  can_take db a →
  (∀ c, best = Some c → live_active db a < live_active db c) →
  first_least db done best → first_least db (done ++ [a]) (Some a).
Proof.
  intros Ha Hlt Hbest. exists done, []. split; [done|]. split; [done|].
  split; [|intros b Hb; by apply elem_of_nil in Hb].
  intros b Hb Hcan. destruct best as [c|]; simpl in Hbest.
  - destruct Hbest as (before & after & -> & Hc & Hbefore & Hafter).
    specialize (Hlt c eq_refl).
    apply elem_of_app in Hb as [Hb|Hb].
    + specialize (Hbefore b Hb Hcan). lia.
    + apply elem_of_cons in Hb as [->|Hb]; [done|].
      specialize (Hafter b Hb Hcan). lia.
  - by destruct (Hbest b Hb).
Qed.

(** The loop keeps [first_least] over the candidates seen so far, with
    [min_workload] the live count of [best_agent], and always returns. *)
Lemma find_best_loop_spec db clk rest : ∀ done best,
  first_least db done best →
  ∃ best',
    find_best_loop db clk rest best (live_active db <$> best) = Return best' ∧
    first_least db (done ++ rest) best'.
Proof.
  induction rest as [|a rest IH]; intros done best Hinv.
  - exists best. by rewrite app_nil_r.
  - replace (done ++ a :: rest) with ((done ++ [a]) ++ rest)
      by (by rewrite <- app_assoc).
    simpl. destruct (agents db !! a) as [ag|] eqn:Hag.
    + destruct (get_agent_workload_known db clk a ag Hag)
        as (w & -> & -> & ->).
      destruct (Z.ltb_spec (live_active db a) (Agent.max_concurrent_tasks ag))
        as [Hcap|Hcap].
      * assert (Hcan : can_take db a) by (by exists ag).
        destruct best as [c|]; simpl.
        -- destruct (Z.ltb_spec (live_active db a) (live_active db c)) as [Hlt|Hge].
           ++ apply (IH (done ++ [a]) (Some a)).
              eapply first_least_replace; [done| |done]. by intros ? [= <-].
           ++ apply (IH (done ++ [a]) (Some c)). by apply first_least_keep.
        -- apply (IH (done ++ [a]) (Some a)).
           eapply first_least_replace; [done| |done]. done.
      * apply IH. apply first_least_skip; [|done].
        intros (ag' & Hag' & Hlt). rewrite Hag in Hag'. simplify_eq. lia.
    + destruct (get_agent_workload_unknown db clk a Hag) as [msg ->].
      apply IH. apply first_least_skip; [|done].
      intros (ag' & Hag' & _). by rewrite Hag in Hag'.
Qed.

(** The scenario of the design document: of two candidates below capacity,
    the first with two active tasks and the second with none, the second is
    chosen; an unknown task type falls back to the coordinator and a
    300-second estimate. *)
Example find_best_agent_prefers_idle :
  suitable_agents "testing" = ["qa-quality"; "seniordeveloper-code"] ∧
  live_active two_agents_db "qa-quality" = 2 ∧
  live_active two_agents_db "seniordeveloper-code" = 0 ∧
  find_best_agent two_agents_db (at_second 3) "testing"
  = Return (Some "seniordeveloper-code") ∧
  suitable_agents "foo" = ["team-coordinator"] ∧
  estimate_task_duration "foo" = 300.
Proof. vm_compute. done. Qed.

(** C4. For every task type, [find_best_agent] returns; its answer is a
    mapped candidate that has a row in the store and fewer active tasks than
    its capacity, with strictly fewer active tasks than every such candidate
    earlier in the list and no more than every such candidate later in it
    (unknown ids never stop the scan); it answers none exactly when every
    candidate is unknown or at capacity, and then [distribute_task] raises
    the no-suitable-agent error and leaves the store as it was. *)
Theorem find_best_agent_least_loaded db clk task_type :
  ∃ best,
    find_best_agent db clk task_type = Return best ∧
    first_least db (suitable_agents task_type) best ∧
    (best = None ↔ ∀ b, b ∈ suitable_agents task_type → ¬ can_take db b) ∧
    (best = None →
     ∀ task_id title description priority,
       distribute_task db clk task_id task_type title description priority None
       = (db, Raise (ValueError "No suitable agent found for this task"))).
Proof.
  destruct (find_best_loop_spec db clk (suitable_agents task_type) [] None)
    as (best & Hrun & Hbest); [by intros b Hb; apply elem_of_nil in Hb|].
  simpl in Hrun, Hbest. exists best. split; [done|]. split; [done|]. split.
  - split; [by intros ->|].
    intros Hnone. destruct best as [a|]; [|done]. exfalso.
    destruct Hbest as (before & after & Heq & Hcan & _).
    apply (Hnone a); [|done]. rewrite Heq. set_solver.
  - intros -> task_id title description priority.
    unfold distribute_task, find_best_agent. by rewrite Hrun.
Qed.

(** * Further properties of the store, the policy and the scheduler *)

(** ** A relation kept by the four writes is kept by every call *)

Section Preservation.
Variable R : Database → Database → Prop.
Hypothesis R_refl : ∀ db, R db db.
Hypothesis R_trans : ∀ db1 db2 db3, R db1 db2 → R db2 db3 → R db1 db3.
Hypothesis R_create : ∀ db clk task, R db (fst (create_task db clk task)).
Hypothesis R_update : ∀ db clk task_id status progress result,
  R db (fst (update_task_status db clk task_id status progress result)).
Hypothesis R_next : ∀ db clk agent_id, R db (fst (get_next_task db clk agent_id)).
Hypothesis R_touch : ∀ db clk agent_id,
  R db {| agent_tasks := agent_tasks db;
          agents := alter (touch_heartbeat clk) agent_id (agents db) |}.

Lemma distribute_task_rel db clk task_id task_type title description priority
    assigned_to :
  R db (fst (distribute_task db clk task_id task_type title description priority
               assigned_to)).
Proof.
  unfold distribute_task.
  destruct (match assigned_to with
            | Some a => if bool_decide (a = "") then find_best_agent db clk task_type
                        else Return (Some a)
            | None => find_best_agent db clk task_type
            end) as [[a|]|e]; cbn beta iota zeta; try apply R_refl.
  destruct (bool_decide (a = "")); [apply R_refl|].
  pose proof (R_create db clk
                (new_task clk task_id a task_type title description priority))
    as Hcreate.
  destruct (create_task db clk _) as [db1 [x|e]]; cbn [fst] in *; [|done].
  pose proof (R_update db1 clk task_id "assigned" None None) as Hnotify.
  unfold notify_agent.
  destruct (update_task_status db1 clk task_id "assigned" None None)
    as [db2 [x'|e]]; cbn [fst] in *; by eapply R_trans.
Qed.

Lemma process_agent_heartbeat_rel db clk agent_id :
  R db (fst (process_agent_heartbeat db clk agent_id)).
Proof.
  unfold process_agent_heartbeat.
  eapply R_trans; [apply (R_touch db clk agent_id)|].
  set (db0 := {| agent_tasks := agent_tasks db; agents := _ |}).
  pose proof (R_next db0 clk agent_id) as Hnext.
  destruct (get_next_task db0 clk agent_id) as [db1 [[task|]|e]];
    cbn [fst] in *; try done.
  pose proof (R_update db1 clk (TaskObject.id task) "working" (Some 10%Q) None)
    as Hstart.
  destruct (update_task_status db1 clk _ "working" _ None) as [db2 [x|e]];
    cbn [fst] in *; by eapply R_trans.
Qed.

Lemma progress_loop_rel clock_at task_id steps : ∀ db k,
  R db (progress_loop db clock_at k task_id steps).
Proof.
  induction steps as [|p steps IH]; intros db k; cbn [progress_loop];
    [apply R_refl|].
  eapply R_trans; [apply R_update | apply IH].
Qed.

Lemma except_branch_rel db clk task_id msg :
  R db (fst (except_branch db clk task_id msg)).
Proof.
  unfold except_branch.
  pose proof (R_update db clk task_id "failed" None
                (Some ("Task failed: " +:+ msg))) as H.
  by destruct (update_task_status db clk task_id "failed" None _)
    as [db' [x|e]].
Qed.

Lemma simulate_task_completion_rel db clock_at task :
  R db (fst (simulate_task_completion db clock_at task)).
Proof.
  unfold simulate_task_completion.
  destruct (truediv (TaskObject.estimated_duration task) 10) as [w|e];
    [|apply except_branch_rel].
  cbn zeta.
  pose proof (progress_loop_rel clock_at (TaskObject.id task)
                [10; 20; 30; 40; 50; 60; 70; 80; 90; 100] db 0%nat) as H10.
  set (db10 := progress_loop db clock_at 0 (TaskObject.id task) _) in *.
  pose proof (R_update db10 (clock_at 10%nat) (TaskObject.id task) "completed"
                (Some 100%Q) (Some (completion_result task))) as H11.
  destruct (update_task_status db10 (clock_at 10%nat) (TaskObject.id task)
              "completed" (Some 100%Q) (Some (completion_result task)))
    as [db11 [x|e]]; cbn [fst] in H11.
  - cbn [fst]. eapply R_trans; [exact H10|]. eapply R_trans; [exact H11|].
    apply process_agent_heartbeat_rel.
  - eapply R_trans; [exact H10|]. eapply R_trans; [exact H11|].
    apply except_branch_rel.
Qed.

Lemma api_step_rel db call : R db (api_step db call).
Proof.
  destruct call; cbn [api_step].
  - apply R_create.
  - apply R_update.
  - apply R_next.
  - apply R_update.
  - apply distribute_task_rel.
  - apply process_agent_heartbeat_rel.
  - apply simulate_task_completion_rel.
Qed.

Lemma api_run_rel calls : ∀ db, R db (api_run db calls).
Proof.
  unfold api_run. induction calls as [|call calls IH]; intros db;
    cbn [foldl].
  - apply R_refl.
  - eapply R_trans; [apply api_step_rel | apply IH].
Qed.

End Preservation.

(** ** Invariants of the task table *)

Lemma same_task_refl r : same_task r r.
Proof. by repeat split. Qed.

Lemma same_task_trans r1 r2 r3 : same_task r1 r2 → same_task r2 r3 → same_task r1 r3.
Proof.
  unfold same_task. intros H12 H23. destruct_and!.
  repeat split; etrans; eauto.
Qed.

Lemma Forall2_same_task_refl rows : Forall2 same_task rows rows.
Proof. induction rows; constructor; auto using same_task_refl. Qed.

Lemma tasks_extend_refl db : tasks_extend db db.
Proof.
  exists (agent_tasks db), []. rewrite app_nil_r.
  split; [done|]. split; [apply Forall2_same_task_refl | constructor].
Qed.

Lemma Forall2_same_task_error_message rows rows' :
  Forall2 same_task rows rows' →
  Forall (λ r, AgentTask.error_message r = None) rows →
  Forall (λ r, AgentTask.error_message r = None) rows'.
Proof.
  induction 1 as [|r r' rows rows' Hsame _ IH]; intros Hall; [constructor|].
  apply Forall_cons in Hall as [Hr Hall]. constructor; [|by apply IH].
  destruct Hsame as (_ & _ & _ & _ & _ & _ & _ & _ & Herr & _). congruence.
Qed.

Lemma Forall2_same_task_trans rows1 rows2 rows3 :
  Forall2 same_task rows1 rows2 → Forall2 same_task rows2 rows3 →
  Forall2 same_task rows1 rows3.
Proof.
  intros H12. revert rows3.
  induction H12 as [|r1 r2 rows1 rows2 Hsame _ IH]; intros rows3 H23.
  - apply Forall2_nil_inv_l in H23 as ->. constructor.
  - apply Forall2_cons_inv_l in H23 as (r3 & rows3' & Hsame' & H23 & ->).
    constructor; [by eapply same_task_trans | by apply IH].
Qed.

Lemma tasks_extend_trans db1 db2 db3 :
  tasks_extend db1 db2 → tasks_extend db2 db3 → tasks_extend db1 db3.
Proof.
  intros (kept1 & new1 & E1 & H1 & Hn1) (kept2 & new2 & E2 & H2 & Hn2).
  rewrite E1 in H2.
  apply Forall2_app_inv_l in H2 as (k2a & k2b & Ha & Hb & ->).
  exists k2a, (k2b ++ new2). split; [by rewrite E2, <- app_assoc|].
  split; [by eapply Forall2_same_task_trans|].
  apply Forall_app. split; [|done].
  by eapply Forall2_same_task_error_message.
Qed.

Lemma tasks_extend_update db task_id (f : AgentTask.t → AgentTask.t) ags :
  (∀ r, same_task r (f r)) →
  tasks_extend db {| agent_tasks := update_where_id task_id f (agent_tasks db);
                     agents := ags |}.
Proof.
  intros Hf. exists (update_where_id task_id f (agent_tasks db)), [].
  simpl. rewrite app_nil_r. split; [done|]. split; [|constructor].
  unfold update_where_id. apply Forall2_fmap_r, Forall2_same_length_lookup.
  split; [done|]. intros i r r' Hr Hr'. simplify_eq.
  change (same_task r (if has_id task_id r then f r else r)).
  destruct (has_id task_id r); [apply Hf | apply same_task_refl].
Qed.

Lemma tasks_extend_same_rows db ags :
  tasks_extend db {| agent_tasks := agent_tasks db; agents := ags |}.
Proof.
  exists (agent_tasks db), []. simpl. rewrite app_nil_r.
  split; [done|]. split; [apply Forall2_same_task_refl | constructor].
Qed.

Lemma create_task_extends db clk task :
  tasks_extend db (fst (create_task db clk task)).
Proof.
  unfold create_task.
  destruct (fetch_task (AgentTask.id task) (agent_tasks db));
    [apply tasks_extend_refl|].
  exists (agent_tasks db), [inserted_row task]. simpl.
  split; [done|]. split; [apply Forall2_same_task_refl|].
  by constructor.
Qed.

Lemma update_task_status_extends db clk task_id status progress result :
  tasks_extend db (fst (update_task_status db clk task_id status progress result)).
Proof.
  unfold update_task_status. destruct (is_terminal status).
  - destruct (fetch_task task_id (agent_tasks db)); [|apply tasks_extend_refl].
    simpl. apply tasks_extend_update. intros r. by repeat split.
  - simpl. apply tasks_extend_update. intros r. by repeat split.
Qed.

Lemma get_next_task_extends db clk agent_id :
  tasks_extend db (fst (get_next_task db clk agent_id)).
Proof.
  unfold get_next_task.
  destruct (agents db !! agent_id); [|apply tasks_extend_refl].
  destruct (_ <=? _); [apply tasks_extend_refl|].
  destruct (head _); [|apply tasks_extend_refl].
  simpl. apply tasks_extend_update. intros r. by repeat split.
Qed.

Lemma api_run_extends db calls : tasks_extend db (api_run db calls).
Proof.
  apply api_run_rel.
  - apply tasks_extend_refl.
  - apply tasks_extend_trans.
  - apply create_task_extends.
  - apply update_task_status_extends.
  - apply get_next_task_extends.
  - intros. apply tasks_extend_same_rows.
Qed.

Lemma fetch_task_extends rows kept new task_id r :
  Forall2 same_task rows kept →
  fetch_task task_id rows = Some r →
  ∃ r', fetch_task task_id (kept ++ new) = Some r' ∧ same_task r r'.
Proof.
  induction 1 as [|r0 r0' rows kept Hsame _ IH]; intros Hfetch; [done|].
  rewrite fetch_task_cons in Hfetch. simpl. rewrite fetch_task_cons.
  assert (Hid : has_id task_id r0' = has_id task_id r0).
  { unfold has_id. by destruct Hsame as (-> & _). }
  rewrite Hid. destruct (has_id task_id r0); [|by apply IH].
  simplify_eq. by exists r0'.
Qed.

(** X1. Tasks are never deleted and never change hands: a task found in the
    store is still found after any sequence of calls of the task interface,
    with the same id, owner, title, description, priority, assignment time,
    estimate, dependencies, error message and creator. *)
Theorem api_run_keeps_tasks db calls task_id r :
  fetch_task task_id (agent_tasks db) = Some r →
  ∃ r', fetch_task task_id (agent_tasks (api_run db calls)) = Some r' ∧
        same_task r r'.
Proof.
  intros Hfetch.
  destruct (api_run_extends db calls) as (kept & new & -> & Hkept & _).
  by eapply fetch_task_extends.
Qed.

(** X2. No call of the task interface writes the [error_message] column: if
    it is NULL in every row, it is NULL in every row after any sequence of
    calls (a failure text goes to [result]). *)
Theorem error_message_never_written db calls :
  Forall (λ r, AgentTask.error_message r = None) (agent_tasks db) →
  Forall (λ r, AgentTask.error_message r = None)
         (agent_tasks (api_run db calls)).
Proof.
  intros Hall.
  destruct (api_run_extends db calls) as (kept & new & -> & Hkept & Hnew).
  apply Forall_app. split; [|done].
  by eapply Forall2_same_task_error_message.
Qed.

(** ** The primary key *)

Lemma api_step_unique_ids db call : unique_ids db → unique_ids (api_step db call).
Proof.
  apply (api_step_rel (λ db db', unique_ids db → unique_ids db')).
  - done.
  - intros db1 db2 db3 H12 H23 H. auto.
  - intros db0 clk task. apply (step_unique_ids db0 (clk, OpCreateTask task)).
  - intros db0 clk t s p res.
    apply (step_unique_ids db0 (clk, OpUpdateTaskStatus t s p res)).
  - intros db0 clk a. apply (step_unique_ids db0 (clk, OpGetNextTask a)).
  - done.
Qed.

(** X3. The primary key of the task table is an invariant of the whole task
    interface: from a store with unique task ids, every sequence of calls
    leads to a store with unique task ids. *)
Theorem api_run_unique_ids db calls :
  unique_ids db → unique_ids (api_run db calls).
Proof.
  unfold api_run. revert db.
  induction calls as [|call calls IH]; intros db Hnd; [done|].
  cbn [foldl]. by apply IH, api_step_unique_ids.
Qed.

Lemma api_run_keeps_tasks_witness :
  fetch_task "t1" (agent_tasks queue_db) = Some (inserted_row (qa_task "t1" 2 1)) ∧
  ∃ r', fetch_task "t1" (agent_tasks (api_run queue_db afternoon)) = Some r' ∧
        same_task (inserted_row (qa_task "t1" 2 1)) r'.
Proof.
  split; [reflexivity|].
  apply (api_run_keeps_tasks queue_db afternoon "t1"). reflexivity.
Defined.

Lemma error_message_never_written_witness :
  Forall (λ r, AgentTask.error_message r = None) (agent_tasks queue_db) ∧
  Forall (λ r, AgentTask.error_message r = None)
         (agent_tasks (api_run queue_db afternoon)).
Proof.
  assert (H : Forall (λ r, AgentTask.error_message r = None)
                (agent_tasks queue_db)).
  { vm_compute. repeat constructor. }
  split; [exact H|]. exact (error_message_never_written queue_db afternoon H).
Defined.

Lemma api_run_unique_ids_witness :
  unique_ids queue_db ∧ unique_ids (api_run queue_db afternoon).
Proof.
  assert (H : unique_ids queue_db).
  { unfold unique_ids. vm_compute. apply NoDup_cons.
    split; [|apply NoDup_singleton].
    intros Hin. apply list_elem_of_singleton in Hin. discriminate. }
  split; [exact H|]. exact (api_run_unique_ids queue_db afternoon H).
Defined.

(** ** Invariants of the agents table *)

Lemma timedelta_seconds_range a b : 0 ≤ timedelta_seconds a b < 86400.
Proof. unfold timedelta_seconds. apply Z.mod_pos_bound. lia. Qed.

Lemma agent_grows_refl ag : agent_grows ag ag.
Proof. unfold agent_grows. repeat split; lia. Qed.

Lemma agent_grows_trans ag1 ag2 ag3 :
  agent_grows ag1 ag2 → agent_grows ag2 ag3 → agent_grows ag1 ag3.
Proof.
  unfold agent_grows. intros H12 H23. destruct_and!.
  repeat split; try (etrans; eauto; fail); lia.
Qed.

Lemma agents_grow_refl db : agents_grow db db.
Proof. intros a. destruct (agents db !! a); [apply agent_grows_refl | done]. Qed.

Lemma agents_grow_trans db1 db2 db3 :
  agents_grow db1 db2 → agents_grow db2 db3 → agents_grow db1 db3.
Proof.
  intros H12 H23 a. specialize (H12 a). specialize (H23 a).
  destruct (agents db1 !! a), (agents db2 !! a), (agents db3 !! a);
    try done. by eapply agent_grows_trans.
Qed.

Lemma agents_grow_alter db (f : Agent.t → Agent.t) agent_id rows :
  (∀ ag, agent_grows ag (f ag)) →
  agents_grow db {| agent_tasks := rows; agents := alter f agent_id (agents db) |}.
Proof.
  intros Hf a. simpl. destruct (decide (agent_id = a)) as [->|Hne].
  - rewrite lookup_alter_eq. destruct (agents db !! a); simpl; [apply Hf | done].
  - rewrite lookup_alter_ne by done.
    destruct (agents db !! a); [apply agent_grows_refl | done].
Qed.

Lemma agents_grow_same db rows :
  agents_grow db {| agent_tasks := rows; agents := agents db |}.
Proof. intros a. simpl. destruct (agents db !! a); [apply agent_grows_refl | done]. Qed.

Lemma add_stats_grows clk status duration ag :
  0 ≤ duration → agent_grows ag (add_stats clk status duration ag).
Proof.
  intros Hd. unfold agent_grows, add_stats. simpl.
  repeat split; try case_bool_decide; lia.
Qed.

Lemma create_task_agents_grow db clk task :
  agents_grow db (fst (create_task db clk task)).
Proof.
  unfold create_task.
  destruct (fetch_task (AgentTask.id task) (agent_tasks db));
    [apply agents_grow_refl|].
  simpl. apply agents_grow_alter. intros ag. unfold agent_grows. simpl.
  repeat split; lia.
Qed.

Lemma update_task_status_agents_grow db clk task_id status progress result :
  agents_grow db (fst (update_task_status db clk task_id status progress result)).
Proof.
  unfold update_task_status. destruct (is_terminal status).
  - destruct (fetch_task task_id (agent_tasks db)); [|apply agents_grow_refl].
    simpl. apply agents_grow_alter. intros ag.
    apply add_stats_grows, timedelta_seconds_range.
  - simpl. apply agents_grow_same.
Qed.

Lemma get_next_task_agents_grow db clk agent_id :
  agents_grow db (fst (get_next_task db clk agent_id)).
Proof.
  unfold get_next_task.
  destruct (agents db !! agent_id); [|apply agents_grow_refl].
  destruct (_ <=? _); [apply agents_grow_refl|].
  destruct (head _); [|apply agents_grow_refl].
  simpl. apply agents_grow_alter. intros ag. unfold agent_grows. simpl.
  repeat split; lia.
Qed.

Lemma api_run_agents_grow db calls : agents_grow db (api_run db calls).
Proof.
  apply api_run_rel.
  - apply agents_grow_refl.
  - apply agents_grow_trans.
  - apply create_task_agents_grow.
  - apply update_task_status_agents_grow.
  - apply get_next_task_agents_grow.
  - intros db0 clk a. apply agents_grow_alter. intros ag.
    unfold agent_grows. simpl. repeat split; lia.
Qed.

(** X4. No call of the task interface adds or removes an agent, and none
    changes an agent's name, nickname, title, model, stored status,
    capacity, average response time or creation time: after any sequence of
    calls the agents table has the same keys and these columns are as
    before. In particular a task for an unknown agent never creates its
    agent. *)
Theorem api_run_keeps_roster db calls :
  dom (agents (api_run db calls)) = dom (agents db) ∧
  ∀ a ag ag',
    agents db !! a = Some ag → agents (api_run db calls) !! a = Some ag' →
    Agent.name ag' = Agent.name ag ∧
    Agent.nickname ag' = Agent.nickname ag ∧
    Agent.title ag' = Agent.title ag ∧
    Agent.model ag' = Agent.model ag ∧
    Agent.status ag' = Agent.status ag ∧
    Agent.max_concurrent_tasks ag' = Agent.max_concurrent_tasks ag ∧
    Agent.average_response_time ag' = Agent.average_response_time ag ∧
    Agent.created_at ag' = Agent.created_at ag.
Proof.
  pose proof (api_run_agents_grow db calls) as Hgrow. split.
  - apply set_eq. intros a. rewrite !elem_of_dom. specialize (Hgrow a).
    destruct (agents db !! a), (agents (api_run db calls) !! a);
      try done; split; intros [? ?]; by eauto.
  - intros a ag ag' Hag Hag'. specialize (Hgrow a).
    rewrite Hag, Hag' in Hgrow. unfold agent_grows in Hgrow.
    destruct_and!. by repeat split.
Qed.

(** X5. The statistics of an agent never go down: after any sequence of
    calls of the task interface, [completed_tasks], [failed_tasks] and
    [total_task_time] of every agent are at least what they were (every
    recorded duration is between 0 and 86399). *)
Theorem api_run_counters_monotone db calls a ag :
  agents db !! a = Some ag →
  ∃ ag', agents (api_run db calls) !! a = Some ag' ∧
         Agent.completed_tasks ag ≤ Agent.completed_tasks ag' ∧
         Agent.failed_tasks ag ≤ Agent.failed_tasks ag' ∧
         Agent.total_task_time ag ≤ Agent.total_task_time ag'.
Proof.
  intros Hag. pose proof (api_run_agents_grow db calls a) as Hgrow.
  rewrite Hag in Hgrow.
  destruct (agents (api_run db calls) !! a) as [ag'|]; [|done].
  exists ag'. unfold agent_grows in Hgrow. destruct_and!. by repeat split.
Qed.

Lemma api_run_counters_monotone_witness :
  agents queue_db !! "qa-quality" = Some (qa_row (Some 2000000)) ∧
  ∃ ag', agents (api_run queue_db afternoon) !! "qa-quality" = Some ag' ∧
         Agent.completed_tasks (qa_row (Some 2000000)) ≤ Agent.completed_tasks ag' ∧
         Agent.failed_tasks (qa_row (Some 2000000)) ≤ Agent.failed_tasks ag' ∧
         Agent.total_task_time (qa_row (Some 2000000)) ≤ Agent.total_task_time ag'.
Proof.
  assert (H : agents queue_db !! "qa-quality" = Some (qa_row (Some 2000000)))
    by (vm_compute; reflexivity).
  split; [exact H|].
  exact (api_run_counters_monotone queue_db afternoon "qa-quality" _ H).
Defined.

(** ** Queries *)

Lemma strongly_sorted_filter {A} (R : relation A) (P : A → Prop)
    `{∀ x, Decision (P x)} (l : list A) :
  StronglySorted R l → StronglySorted R (filter P l).
Proof.
  induction 1 as [|x l Hsorted IH Hall]; [constructor|].
  rewrite filter_cons. case_decide; [|done].
  constructor; [done|]. rewrite Forall_forall in Hall |- *.
  intros y Hy. apply list_elem_of_filter in Hy as [_ Hy]. by apply Hall.
Qed.

Lemma get_agent_tasks_members db agent_id :
  StronglySorted order_le (get_agent_tasks db agent_id) ∧
  ∀ r, r ∈ get_agent_tasks db agent_id ↔
       r ∈ agent_tasks db ∧ AgentTask.agent_id r = agent_id.
Proof.
  unfold get_agent_tasks. split; [apply StronglySorted_merge_sort; apply _|].
  intros r. rewrite (order_by_perm _), elem_of_select, bool_decide_eq_true.
  tauto.
Qed.

(** X6. [get_agent_tasks] returns exactly the rows of the agent, each as
    often as the table holds it, in nondecreasing (priority, assigned_at)
    order; for an agent without tasks, known or not, it returns the empty
    list. *)
Theorem get_agent_tasks_sorted db agent_id :
  get_agent_tasks db agent_id
    ≡ₚ select (λ r, bool_decide (AgentTask.agent_id r = agent_id)) (agent_tasks db) ∧
  StronglySorted order_le (get_agent_tasks db agent_id) ∧
  (∀ r, r ∈ get_agent_tasks db agent_id ↔
        r ∈ agent_tasks db ∧ AgentTask.agent_id r = agent_id) ∧
  ((∀ r, r ∈ agent_tasks db → AgentTask.agent_id r ≠ agent_id) →
   get_agent_tasks db agent_id = []).
Proof.
  destruct (get_agent_tasks_members db agent_id) as [Hsorted Hmem].
  split; [apply order_by_perm|]. split; [done|]. split; [done|].
  intros Hnone. destruct (get_agent_tasks db agent_id) as [|r l] eqn:E; [done|].
  exfalso. assert (Hin : r ∈ r :: l) by left.
  apply Hmem in Hin as [Hin Ha]. by apply (Hnone r).
Qed.

(** X7. [get_agent_workload] raises [ValueError] for an id with no agents
    row, whatever tasks carry that id. For a known agent it returns a
    snapshot whose [current_tasks] are exactly the agent's rows in
    'assigned' or 'working', in (priority, assigned_at) order, whose
    [active_count] is their number (the live count, not the stored
    [active_tasks] column), whose counters are the stored ones, and whose
    nickname falls back to the name when the stored nickname is empty. *)
Theorem get_agent_workload_snapshot db clk agent_id :
  match agents db !! agent_id with
  | None =>
      get_agent_workload db clk agent_id
      = Raise (ValueError ("Agent " +:+ agent_id +:+ " not found"))
  | Some ag =>
      ∃ w,
        get_agent_workload db clk agent_id = Return w ∧
        AgentWorkload.agent_id w = agent_id ∧
        (∀ r, r ∈ AgentWorkload.current_tasks w ↔
              r ∈ agent_tasks db ∧ AgentTask.agent_id r = agent_id ∧
              is_active (AgentTask.status r) = true) ∧
        StronglySorted order_le (AgentWorkload.current_tasks w) ∧
        AgentWorkload.active_count w
        = Z.of_nat (length (AgentWorkload.current_tasks w)) ∧
        AgentWorkload.active_count w = live_active db agent_id ∧
        AgentWorkload.max_concurrent w = Agent.max_concurrent_tasks ag ∧
        AgentWorkload.completed_count w = Agent.completed_tasks ag ∧
        AgentWorkload.failed_count w = Agent.failed_tasks ag ∧
        AgentWorkload.total_task_time w = Agent.total_task_time ag ∧
        AgentWorkload.agent_name w = Agent.name ag ∧
        (Agent.nickname ag = "" → AgentWorkload.agent_nickname w = Agent.name ag) ∧
        (Agent.nickname ag ≠ "" →
         AgentWorkload.agent_nickname w = Agent.nickname ag)
  end.
Proof.
  unfold get_agent_workload.
  destruct (agents db !! agent_id) as [ag|]; [|done].
  eexists. split; [reflexivity|]. simpl.
  destruct (get_agent_tasks_members db agent_id) as [Hsorted Hmem].
  split; [done|]. split.
  { intros r. rewrite list_elem_of_filter, Hmem. tauto. }
  split; [by apply strongly_sorted_filter|].
  split; [done|]. split; [apply workload_active_count|].
  do 5 (split; [done|]). split.
  - by intros ->.
  - intros Hne. by rewrite bool_decide_eq_false_2.
Qed.

(** X8. The derived status of an idle agent below its capacity whose last
    heartbeat lies [days] whole days, [s] seconds and [us] microseconds
    before [datetime.now()] is 'offline' exactly when [s] exceeds 60: the
    days of the difference are not looked at, so a heartbeat one day and
    half a minute old still reads 'available'. *)
Theorem workload_offline_window db clk agent_id ag hb days s us :
  agents db !! agent_id = Some ag →
  live_active db agent_id = 0 →
  0 < Agent.max_concurrent_tasks ag →
  Agent.last_heartbeat ag = Some hb →
  datetime_now clk - hb = (days * 86400 + s) * 1000000 + us →
  0 ≤ s < 86400 → 0 ≤ us < 1000000 →
  ∃ w, get_agent_workload db clk agent_id = Return w ∧
       AgentWorkload.status w = if 60 <? s then "offline" else "available".
Proof.
  intros Hag Hidle Hcap Hhb Hgap Hs Hus. unfold get_agent_workload.
  rewrite Hag. eexists. split; [reflexivity|]. simpl.
  rewrite workload_active_count, Hidle, Hhb.
  rewrite (proj2 (Z.leb_gt _ _) Hcap). simpl.
  assert (Hsec : timedelta_seconds (datetime_now clk) hb = s).
  { unfold timedelta_seconds. rewrite Hgap.
    assert (Hdiv : ((days * 86400 + s) * 1000000 + us) / 1000000
                   = days * 86400 + s)
      by (symmetry; apply (Z.div_unique _ _ _ us); lia).
    rewrite Hdiv. symmetry. apply (Z.mod_unique _ _ days); lia. }
  by rewrite Hsec.
Qed.

Lemma workload_offline_window_witness :
  agents queue_db !! "qa-quality" = Some (qa_row (Some 2000000)) ∧
  live_active queue_db "qa-quality" = 0 ∧
  ∃ w, get_agent_workload queue_db (at_second (2 + 86400 + 30)) "qa-quality"
       = Return w ∧
       AgentWorkload.status w = "available".
Proof.
  assert (Hag : agents queue_db !! "qa-quality" = Some (qa_row (Some 2000000)))
    by (vm_compute; reflexivity).
  assert (Hidle : live_active queue_db "qa-quality" = 0)
    by (vm_compute; reflexivity).
  split; [exact Hag|]. split; [exact Hidle|].
  apply (workload_offline_window queue_db (at_second (2 + 86400 + 30))
           "qa-quality" _ 2000000 1 30 0 Hag Hidle);
    [reflexivity | reflexivity | reflexivity | lia | lia].
Defined.

(** ** [create_task] *)





(** ** [update_task_status] on a missing or an existing task *)

Lemma update_where_id_no_match task_id (f : AgentTask.t → AgentTask.t) rows :
  fetch_task task_id rows = None → update_where_id task_id f rows = rows.
Proof.
  intros Hnone. unfold update_where_id.
  rewrite <- (list_fmap_id rows) at 2. apply list_fmap_ext.
  intros i r Hr. simpl.
  assert (Hno : has_id task_id r = false).
  { apply has_id_false. eapply fetch_task_None; [done|].
    by eapply list_elem_of_lookup_2. }
  by rewrite Hno.
Qed.

Lemma database_eta db : {| agent_tasks := agent_tasks db; agents := agents db |} = db.
Proof. by destruct db. Qed.

(** X11. For a task id the table does not hold, [update_task_status] with
    'completed' or 'failed' raises [TypeError] (the [assigned_at] lookup
    subscripts [None]); with any other status it returns normally. In both
    cases the store is left exactly as it was: no row is created. *)
Theorem update_task_status_missing_task db clk task_id status progress result :
  fetch_task task_id (agent_tasks db) = None →
  update_task_status db clk task_id status progress result
  = (db, if is_terminal status then Raise TypeError else Return ()).
Proof.
  intros Hnone. unfold update_task_status. rewrite Hnone.
  destruct (is_terminal status); [done|].
  by rewrite update_where_id_no_match, database_eta.
Qed.

Lemma update_task_status_missing_task_witness :
  fetch_task "t9" (agent_tasks queue_db) = None ∧
  update_task_status queue_db (at_second 5) "t9" "completed" None None
  = (queue_db, Raise TypeError) ∧
  update_task_status queue_db (at_second 5) "t9" "working" (Some 50%Q) None
  = (queue_db, Return ()).
Proof.
  split; [reflexivity|]. split.
  - exact (update_task_status_missing_task queue_db (at_second 5) "t9"
             "completed" None None eq_refl).
  - exact (update_task_status_missing_task queue_db (at_second 5) "t9"
             "working" (Some 50%Q) None eq_refl).
Defined.

(** X12. A terminal transition of an existing task stores the status
    passed, stamps [completed_at], and records as [actual_duration] a value
    [d] with 0 <= d < 86400, also when the clock is behind the assignment
    time; [d] is the whole number of elapsed seconds whenever the elapsed
    time is between zero and one day. The same [d] is added to the owner's
    [total_task_time] when the owner has a row, and a result text passed
    with 'failed' is stored in [result]. *)
Theorem terminal_transition_records db clk task_id status progress result row :
  is_terminal status = true →
  fetch_task task_id (agent_tasks db) = Some row →
  let out := update_task_status db clk task_id status progress result in
  let d := timedelta_seconds (datetime_now clk) (AgentTask.assigned_at row) in
  snd out = Return () ∧
  0 ≤ d < 86400 ∧
  (0 ≤ datetime_now clk - AgentTask.assigned_at row < 86400 * 1000000 →
   d = elapsed_whole_seconds (datetime_now clk) (AgentTask.assigned_at row)) ∧
  (∃ row',
     fetch_task task_id (agent_tasks (fst out)) = Some row' ∧
     AgentTask.status row' = status ∧
     AgentTask.completed_at row' = Some (CURRENT_TIMESTAMP clk) ∧
     AgentTask.actual_duration row' = Some d ∧
     AgentTask.last_updated row' = CURRENT_TIMESTAMP clk ∧
     (∀ text, result = Some text → AgentTask.result row' = Some text) ∧
     (result = None → AgentTask.result row' = AgentTask.result row)) ∧
  (∀ ag, agents db !! AgentTask.agent_id row = Some ag →
     ∃ ag', agents (fst out) !! AgentTask.agent_id row = Some ag' ∧
            Agent.total_task_time ag' = Agent.total_task_time ag + d ∧
            Agent.completed_tasks ag' + Agent.failed_tasks ag'
            = Agent.completed_tasks ag + Agent.failed_tasks ag + 1 ∧
            Agent.active_tasks ag' = Agent.active_tasks ag).
Proof.
  intros Hterm Hrow out d. subst out.
  rewrite (update_task_status_terminal _ _ _ _ _ _ row) by done.
  fold d. cbn [fst snd agent_tasks agents].
  split; [done|]. split; [apply timedelta_seconds_range|].
  split; [apply timedelta_seconds_within_day|]. split.
  - eexists. split; [by apply fetch_task_update_same|].
    unfold set_task_status. simpl. rewrite Hterm.
    repeat split; try done. by intros text ->. by intros ->.
  - intros ag Hag. eexists. rewrite lookup_alter_eq, Hag. split; [done|].
    unfold add_stats. simpl. repeat split; case_bool_decide; lia.
Qed.

Lemma terminal_transition_records_witness :
  is_terminal "failed" = true ∧
  fetch_task "t1" (agent_tasks working_db) = Some working_row ∧
  snd (update_task_status working_db (at_second 60) "t1" "failed" None
         (Some "boom")) = Return ().
Proof.
  assert (Hrow : fetch_task "t1" (agent_tasks working_db) = Some working_row)
    by (vm_compute; reflexivity).
  split; [reflexivity|]. split; [exact Hrow|].
  apply (terminal_transition_records working_db (at_second 60) "t1" "failed"
           None (Some "boom") working_row eq_refl Hrow).
Defined.

(** ** [get_next_task]: counts, the returned object, the late exception *)

Lemma count_cons p r rows :
  count p (r :: rows) = (if p r then 1 else 0) + count p rows.
Proof.
  unfold count. rewrite select_cons. destruct (p r); simpl length; lia.
Qed.

Lemma count_app p rows1 rows2 :
  count p (rows1 ++ rows2) = count p rows1 + count p rows2.
Proof. unfold count. rewrite select_app, length_app. lia. Qed.

(** An UPDATE by key on a table with unique keys changes a count by what
    the one row contributes before and after. *)
Lemma count_update_unique p (f : AgentTask.t → AgentTask.t) rows row :
  NoDup (AgentTask.id <$> rows) → row ∈ rows →
  count p (update_where_id (AgentTask.id row) f rows)
  = count p rows - (if p row then 1 else 0) + (if p (f row) then 1 else 0).
Proof.
  induction rows as [|r0 rows IH]; intros Hnd Hin.
  - by apply elem_of_nil in Hin.
  - rewrite fmap_cons in Hnd. apply NoDup_cons in Hnd as [Hfresh Hnd].
    unfold update_where_id in *. rewrite fmap_cons, !count_cons.
    destruct (has_id (AgentTask.id row) r0) eqn:Hid.
    + apply has_id_true in Hid.
      assert (r0 = row) as ->.
      { apply elem_of_cons in Hin as [->|Hin]; [done|]. exfalso.
        apply Hfresh. rewrite Hid. by apply list_elem_of_fmap_2. }
      assert (Hrest : fetch_task (AgentTask.id row) rows = None).
      { apply fetch_task_None. intros r Hr Heq. apply Hfresh.
        rewrite <- Heq. by apply list_elem_of_fmap_2. }
      pose proof (update_where_id_no_match _ f _ Hrest) as Hsame.
      unfold update_where_id in Hsame. rewrite Hsame. lia.
    + apply has_id_false in Hid.
      apply elem_of_cons in Hin as [->|Hin]; [done|].
      rewrite IH by done. lia.
Qed.

Lemma is_active_pending : is_active "pending" = false.
Proof. reflexivity. Qed.

(** What a successful [get_next_task] looked like inside. *)
Lemma get_next_task_returned db clk agent_id task :
  snd (get_next_task db clk agent_id) = Return (Some task) →
  ∃ ag row,
    agents db !! agent_id = Some ag ∧
    live_active db agent_id < Agent.max_concurrent_tasks ag ∧
    row ∈ agent_tasks db ∧
    AgentTask.agent_id row = agent_id ∧
    AgentTask.status row = "pending" ∧
    returned_task row = Return task ∧
    fst (get_next_task db clk agent_id) =
      {| agent_tasks :=
           update_where_id (AgentTask.id row) (mark_assigned clk) (agent_tasks db);
         agents := alter (set_active_tasks clk (live_active db agent_id + 1))
                     agent_id (agents db) |}.
Proof.
  unfold get_next_task, live_active.
  destruct (agents db !! agent_id) as [ag|]; [|done].
  destruct (Z.leb_spec (Agent.max_concurrent_tasks ag)
              (count (active_of agent_id) (agent_tasks db))) as [|Hcap]; [done|].
  destruct (head _) as [row|] eqn:Hhd; [|done]. simpl.
  apply head_order_by_Some in Hhd as [Hin _].
  apply elem_of_select in Hin as [Hp Hin].
  apply pending_of_true in Hp as [Ha Hs].
  destruct (returned_task row) as [t|e] eqn:Hret; [|done].
  intros [= <-]. by exists ag, row.
Qed.

(** X13. On a table with unique task ids, a [get_next_task] that returns a
    task raises the agent's live count of 'assigned' and 'working' tasks by
    exactly one, keeps it within [max_concurrent_tasks], leaves the stored
    [active_tasks] equal to the new live count, and changes neither the
    live count nor the stored counter of any other agent. *)
Theorem get_next_task_live_count db clk agent_id task :
  unique_ids db →
  snd (get_next_task db clk agent_id) = Return (Some task) →
  let db' := fst (get_next_task db clk agent_id) in
  live_active db' agent_id = live_active db agent_id + 1 ∧
  (∃ ag, agents db !! agent_id = Some ag ∧
         live_active db' agent_id ≤ Agent.max_concurrent_tasks ag) ∧
  stored_active db' agent_id = Some (live_active db' agent_id) ∧
  (∀ b, b ≠ agent_id →
     live_active db' b = live_active db b ∧
     stored_active db' b = stored_active db b).
Proof.
  intros Hnd Hret db'. subst db'.
  destruct (get_next_task_returned _ _ _ _ Hret)
    as (ag & row & Hag & Hcap & Hin & Ha & Hs & _ & ->).
  assert (Hcount : ∀ b,
    live_active {| agent_tasks := update_where_id (AgentTask.id row)
                                    (mark_assigned clk) (agent_tasks db);
                   agents := alter (set_active_tasks clk
                                      (live_active db agent_id + 1))
                               agent_id (agents db) |} b
    = live_active db b + (if bool_decide (agent_id = b) then 1 else 0)).
  { intros b. unfold live_active. simpl.
    rewrite count_update_unique by done.
    unfold active_of. simpl. rewrite Hs, Ha, is_active_pending.
    rewrite andb_false_r, andb_true_r. lia. }
  split; [by rewrite Hcount, bool_decide_eq_true_2|]. split.
  { exists ag. split; [done|]. rewrite Hcount, bool_decide_eq_true_2 by done. lia. }
  split.
  { rewrite Hcount, bool_decide_eq_true_2 by done.
    unfold stored_active. simpl. by rewrite lookup_alter_eq, Hag. }
  intros b Hne. split.
  - rewrite Hcount, bool_decide_eq_false_2 by done. lia.
  - unfold stored_active. simpl. by rewrite lookup_alter_ne.
Qed.

Lemma get_next_task_live_count_witness :
  unique_ids queue_db ∧
  (∃ task, snd (get_next_task queue_db (at_second 3) "qa-quality")
           = Return (Some task)) ∧
  live_active (fst (get_next_task queue_db (at_second 3) "qa-quality"))
    "qa-quality" = live_active queue_db "qa-quality" + 1.
Proof.
  assert (Hnd : unique_ids queue_db).
  { unfold unique_ids. vm_compute. apply NoDup_cons.
    split; [|apply NoDup_singleton].
    intros Hin. apply list_elem_of_singleton in Hin. discriminate. }
  split; [exact Hnd|]. split; [eexists; vm_compute; reflexivity|].
  eapply (get_next_task_live_count queue_db (at_second 3) "qa-quality" _ Hnd).
  vm_compute. reflexivity.
Defined.

(** X14. The object [get_next_task] returns is not the stored task: its
    keywords from [progress] on are filled from the column one place to the
    left. Whenever the call returns a task, a pending row of the agent
    exists such that the object has the row's id, owner, title, description
    and priority and status 'assigned', while its [progress] is the text
    'pending', its [assigned_at] the row's progress, its [started_at] the
    row's assignment time, its [estimated_duration] the row's [completed_at]
    (NULL or a timestamp text, never a number), its [actual_duration] the
    row's estimate, its [dependencies] the empty list, its [result] the
    row's dependency text and its [last_updated] the row's creator. *)
Theorem get_next_task_returned_object db clk agent_id task :
  snd (get_next_task db clk agent_id) = Return (Some task) →
  ∃ row,
    row ∈ agent_tasks db ∧
    AgentTask.agent_id row = agent_id ∧
    AgentTask.status row = "pending" ∧
    TaskObject.id task = AgentTask.id row ∧
    TaskObject.agent_id task = AgentTask.agent_id row ∧
    TaskObject.title task = AgentTask.title row ∧
    TaskObject.description task = AgentTask.description row ∧
    TaskObject.priority task = AgentTask.priority row ∧
    TaskObject.status task = "assigned" ∧
    TaskObject.progress task = VStr "pending" ∧
    TaskObject.assigned_at task = VFloat (AgentTask.progress row) ∧
    TaskObject.started_at task = VStamp (AgentTask.assigned_at row) ∧
    TaskObject.completed_at task = of_stamp (AgentTask.started_at row) ∧
    TaskObject.estimated_duration task = of_stamp (AgentTask.completed_at row) ∧
    TaskObject.actual_duration task = VInt (AgentTask.estimated_duration row) ∧
    TaskObject.dependencies task = VList [] ∧
    TaskObject.result task = VJson (AgentTask.dependencies row) ∧
    TaskObject.error_message task = of_str (AgentTask.result row) ∧
    TaskObject.created_by task = of_str (AgentTask.error_message row) ∧
    TaskObject.last_updated task = VStr (AgentTask.created_by row) ∧
    truediv (TaskObject.estimated_duration task) 10 = Raise TypeError.
Proof.
  intros Hret.
  destruct (get_next_task_returned _ _ _ _ Hret)
    as (ag & row & _ & _ & Hin & Ha & Hs & Hobj & _).
  exists row. split; [done|]. split; [done|]. split; [done|].
  unfold returned_task in Hobj.
  assert (Htask : task = {|
       TaskObject.id := AgentTask.id row;
       TaskObject.agent_id := AgentTask.agent_id row;
       TaskObject.title := AgentTask.title row;
       TaskObject.description := AgentTask.description row;
       TaskObject.priority := AgentTask.priority row;
       TaskObject.status := "assigned";
       TaskObject.progress := VStr (AgentTask.status row);
       TaskObject.assigned_at := VFloat (AgentTask.progress row);
       TaskObject.started_at := VStamp (AgentTask.assigned_at row);
       TaskObject.completed_at := of_stamp (AgentTask.started_at row);
       TaskObject.estimated_duration := of_stamp (AgentTask.completed_at row);
       TaskObject.actual_duration := VInt (AgentTask.estimated_duration row);
       TaskObject.dependencies := VList [];
       TaskObject.result := VJson (AgentTask.dependencies row);
       TaskObject.error_message := of_str (AgentTask.result row);
       TaskObject.created_by := of_str (AgentTask.error_message row);
       TaskObject.last_updated := VStr (AgentTask.created_by row) |}).
  { destruct (AgentTask.actual_duration row) as [d|];
      [destruct (d =? 0)|]; by simplify_eq. }
  rewrite Htask. simpl. rewrite Hs.
  repeat split. by destruct (AgentTask.completed_at row).
Qed.

Lemma get_next_task_returned_object_witness :
  (∃ task, snd (get_next_task queue_db (at_second 3) "qa-quality")
           = Return (Some task)) ∧
  ∃ row, row ∈ agent_tasks queue_db ∧ AgentTask.status row = "pending".
Proof.
  split; [eexists; vm_compute; reflexivity|].
  destruct (get_next_task_returned_object queue_db (at_second 3) "qa-quality" _
              eq_refl) as (row & Hin & _ & Hs & _).
  by exists row.
Defined.



(** ** The policy tables *)

Lemma suitable_agents_cases task_type :
  suitable_agents task_type ∈
    [ ["cto-leader"; "sa-architect"; "softarch-lead"];
      ["ba-strategist"; "uiux-researcher"; "cto-leader"];
      ["leaddeveloper-tech"; "seniordeveloper-code"; "juniorddeveloper-learning"];
      ["qa-quality"; "seniordeveloper-code"];
      ["sysadmin-infrastructure"; "devops-automation"; "dba-data"];
      ["dba-data"; "devops-automation"; "seniordeveloper-code"];
      ["uiux-researcher"; "ba-strategist"];
      ["team-coordinator"] ].
Proof.
  unfold suitable_agents, task_mapping. cbn [dict_get].
  repeat case_bool_decide; set_solver.
Qed.

Lemma suitable_agents_not_empty_id task_type a :
  a ∈ suitable_agents task_type → a ≠ "".
Proof.
  intros Ha Hempty. subst a.
  pose proof (suitable_agents_cases task_type) as Hcases.
  repeat (apply elem_of_cons in Hcases as [Heq|Hcases];
          [rewrite Heq in Ha; clear Heq;
           repeat (apply elem_of_cons in Ha as [Ha|Ha]; [discriminate|]);
           by apply elem_of_nil in Ha|]).
  by apply elem_of_nil in Hcases.
Qed.

Lemma dict_get_unknown {A} (d : list (string * A)) key (dflt : A) :
  key ∉ d.*1 → dict_get d key dflt = dflt.
Proof.
  induction d as [|[k v] d IH]; intros Hkey; [done|].
  rewrite fmap_cons in Hkey. apply not_elem_of_cons in Hkey as [Hne Hkey].
  simpl in *. rewrite bool_decide_eq_false_2 by congruence. by apply IH.
Qed.

(** X16. Every task type, known or not, has a non-empty candidate list of
    non-empty agent ids and a duration estimate between 60 and 900 seconds;
    a type outside the eight known ones gets the single candidate
    "team-coordinator" and the estimate 300, not the 60 seconds of
    'general'. *)
Theorem task_type_tables task_type :
  suitable_agents task_type ≠ [] ∧
  (∀ a, a ∈ suitable_agents task_type → a ≠ "") ∧
  60 ≤ estimate_task_duration task_type ≤ 900 ∧
  (task_type ∉ known_task_types →
   suitable_agents task_type = ["team-coordinator"] ∧
   suitable_agents task_type = suitable_agents "general" ∧
   estimate_task_duration task_type = 300 ∧
   estimate_task_duration "general" = 60).
Proof.
  split.
  { pose proof (suitable_agents_cases task_type) as Hcases. intros Hnil.
    rewrite Hnil in Hcases.
    repeat (apply elem_of_cons in Hcases as [Heq|Hcases]; [discriminate|]).
    by apply elem_of_nil in Hcases. }
  split; [apply suitable_agents_not_empty_id|]. split.
  - unfold estimate_task_duration. cbn [dict_get]. repeat case_bool_decide; lia.
  - intros Hunknown. unfold suitable_agents, estimate_task_duration.
    rewrite (dict_get_unknown task_mapping) by exact Hunknown.
    rewrite (dict_get_unknown (A:=Z)) by exact Hunknown.
    repeat split; reflexivity.
Qed.

(** ** [distribute_task] through the policy *)

(** What a [distribute_task] that has settled on an agent does to a store in
    which the new id is free. *)
Lemma distribute_task_with db clk task_id task_type title description priority
    assigned_to a :
  chosen_agent db clk task_type assigned_to = Return (Some a) →
  a ≠ "" →
  fetch_task task_id (agent_tasks db) = None →
  distribute_task db clk task_id task_type title description priority assigned_to
  = ({| agent_tasks :=
          agent_tasks db ++
          [set_task_status clk "assigned" None None 0
             (inserted_row (new_task clk task_id a task_type title description
                              priority))];
        agents := alter (touch_heartbeat clk) a (agents db) |},
     Return task_id).
Proof.
  intros Hchosen Ha Hfresh. unfold distribute_task.
  change (match assigned_to with
          | Some a0 => if bool_decide (a0 = "")
                       then find_best_agent db clk task_type
                       else Return (Some a0)
          | None => find_best_agent db clk task_type
          end) with (chosen_agent db clk task_type assigned_to).
  rewrite Hchosen. cbn beta iota zeta. rewrite (bool_decide_eq_false_2 _ Ha).
  rewrite create_task_fresh by done.
  unfold notify_agent, update_task_status.
  change (is_terminal "assigned") with false. cbn beta iota zeta.
  cbn [agent_tasks agents AgentTask.agent_id new_task].
  f_equal. f_equal. unfold update_where_id. rewrite fmap_app.
  pose proof (update_where_id_no_match task_id
                (set_task_status clk "assigned" None None 0) _ Hfresh) as Hsame.
  unfold update_where_id in Hsame. rewrite Hsame. f_equal.
  unfold has_id. simpl. by rewrite bool_decide_eq_true_2.
Qed.

(** A [distribute_task] that returns has settled on a non-empty agent id. *)
Lemma distribute_task_returns db clk task_id task_type title description
    priority assigned_to x :
  snd (distribute_task db clk task_id task_type title description priority
         assigned_to) = Return x →
  ∃ a, chosen_agent db clk task_type assigned_to = Return (Some a) ∧ a ≠ "".
Proof.
  unfold distribute_task.
  change (match assigned_to with
          | Some a0 => if bool_decide (a0 = "")
                       then find_best_agent db clk task_type
                       else Return (Some a0)
          | None => find_best_agent db clk task_type
          end) with (chosen_agent db clk task_type assigned_to).
  destruct (chosen_agent db clk task_type assigned_to) as [[a|]|e]; try done.
  cbn beta iota zeta. case_bool_decide; [done|]. intros _. by exists a.
Qed.



(** X18. Whatever way the agent was chosen, a [distribute_task] that returns
    (on a free task id) adds exactly one row, raises the live count of the
    owner by one and of no other agent, and leaves every stored
    [active_tasks] counter as it was; with an explicit agent nothing bounds
    the new live count by the agent's capacity. *)
Theorem distribute_task_counts db clk task_id task_type title description
    priority assigned_to x :
  fetch_task task_id (agent_tasks db) = None →
  let out := distribute_task db clk task_id task_type title description
               priority assigned_to in
  snd out = Return x →
  x = task_id ∧
  length (agent_tasks (fst out)) = S (length (agent_tasks db)) ∧
  (∃ a,
     AgentTask.agent_id <$> fetch_task task_id (agent_tasks (fst out)) = Some a ∧
     (∀ explicit, assigned_to = Some explicit → explicit ≠ "" → a = explicit) ∧
     live_active (fst out) a = live_active db a + 1 ∧
     (∀ b, b ≠ a → live_active (fst out) b = live_active db b)) ∧
  (∀ b, stored_active (fst out) b = stored_active db b).
Proof.
  intros Hfresh out Hret. subst out.
  destruct (distribute_task_returns _ _ _ _ _ _ _ _ _ Hret) as (a & Hchosen & Ha).
  rewrite (distribute_task_with _ _ _ _ _ _ _ _ a) in Hret |- * by done.
  cbn [fst snd agent_tasks agents] in *. split; [by simplify_eq|].
  split; [rewrite length_app; simpl; lia|]. split.
  - exists a. split; [by erewrite fetch_task_app_fresh|].
    split.
    { intros explicit -> Hne. unfold chosen_agent in Hchosen.
      rewrite bool_decide_eq_false_2 in Hchosen by done. by simplify_eq. }
    assert (Hlive : ∀ b, live_active
              {| agent_tasks := agent_tasks db ++
                   [set_task_status clk "assigned" None None 0
                      (inserted_row (new_task clk task_id a task_type title
                                       description priority))];
                 agents := alter (touch_heartbeat clk) a (agents db) |} b
              = live_active db b + (if bool_decide (a = b) then 1 else 0)).
    { intros b. unfold live_active. simpl. rewrite count_app, count_cons.
      unfold active_of. simpl. unfold count. simpl.
      case_bool_decide; simpl; lia. }
    split.
    + by rewrite Hlive, bool_decide_eq_true_2.
    + intros b Hne. rewrite Hlive, bool_decide_eq_false_2 by done. lia.
  - intros b. unfold stored_active. simpl.
    destruct (decide (a = b)) as [->|Hne].
    + rewrite lookup_alter_eq. by destruct (agents db !! b).
    + by rewrite lookup_alter_ne.
Qed.


Lemma distribute_task_counts_witness :
  fetch_task "t3" (agent_tasks queue_db) = None ∧
  snd (distribute_task queue_db (at_second 3) "t3" "testing" "regress" "rerun" 2
         (Some "qa-quality")) = Return "t3" ∧
  length (agent_tasks (fst (distribute_task queue_db (at_second 3) "t3" "testing"
                              "regress" "rerun" 2 (Some "qa-quality"))))
  = S (length (agent_tasks queue_db)).
Proof.
  assert (Hret : snd (distribute_task queue_db (at_second 3) "t3" "testing"
                        "regress" "rerun" 2 (Some "qa-quality")) = Return "t3")
    by (vm_compute; reflexivity).
  split; [reflexivity|]. split; [exact Hret|].
  apply (distribute_task_counts queue_db (at_second 3) "t3" "testing" "regress"
           "rerun" 2 (Some "qa-quality") "t3" eq_refl Hret).
Defined.


(** ** The scheduler step *)

Lemma touch_unknown db clk agent_id :
  agents db !! agent_id = None →
  {| agent_tasks := agent_tasks db;
     agents := alter (touch_heartbeat clk) agent_id (agents db) |} = db.
Proof.
  intros Hnone. rewrite alter_id; [apply database_eta|].
  intros ag Hag. by rewrite Hnone in Hag.
Qed.

(** X19. A scheduler step for an agent id with no agents row changes
    nothing and schedules nothing: the heartbeat UPDATE matches no row, and
    the [TypeError] of [get_next_task] is swallowed by the handler. *)
Theorem process_agent_heartbeat_unknown_agent db clk agent_id :
  agents db !! agent_id = None →
  process_agent_heartbeat db clk agent_id = (db, None).
Proof.
  intros Hnone. unfold process_agent_heartbeat.
  rewrite touch_unknown by done. unfold get_next_task. by rewrite Hnone.
Qed.

Lemma process_agent_heartbeat_unknown_agent_witness :
  agents queue_db !! "nobody" = None ∧
  process_agent_heartbeat queue_db (at_second 3) "nobody" = (queue_db, None).
Proof.
  split; [reflexivity|].
  exact (process_agent_heartbeat_unknown_agent queue_db (at_second 3) "nobody"
           eq_refl).
Defined.

Lemma returned_task_not_number row task :
  returned_task row = Return task →
  TaskObject.id task = AgentTask.id row ∧
  TaskObject.agent_id task = AgentTask.agent_id row ∧
  TaskObject.estimated_duration task = of_stamp (AgentTask.completed_at row) ∧
  truediv (TaskObject.estimated_duration task) 10 = Raise TypeError.
Proof.
  unfold returned_task. intros Hret.
  assert (Hest : TaskObject.id task = AgentTask.id row ∧
                 TaskObject.agent_id task = AgentTask.agent_id row ∧
                 TaskObject.estimated_duration task
                 = of_stamp (AgentTask.completed_at row)).
  { destruct (AgentTask.actual_duration row) as [d|];
      [destruct (d =? 0)|]; by simplify_eq. }
  destruct Hest as (Hid & Ha & Hest). repeat split; try done.
  rewrite Hest. by destruct (AgentTask.completed_at row).
Qed.

(** What a scheduler step that schedules a simulation looked like inside. *)
Lemma process_agent_heartbeat_spawned db clk agent_id db1 task :
  process_agent_heartbeat db clk agent_id = (db1, Some task) →
  ∃ row,
    row ∈ agent_tasks db ∧
    AgentTask.agent_id row = agent_id ∧
    AgentTask.status row = "pending" ∧
    TaskObject.id task = AgentTask.id row ∧
    TaskObject.agent_id task = agent_id ∧
    TaskObject.estimated_duration task = of_stamp (AgentTask.completed_at row) ∧
    truediv (TaskObject.estimated_duration task) 10 = Raise TypeError ∧
    db1 =
      {| agent_tasks :=
           update_where_id (AgentTask.id row)
             (set_task_status clk "working" (Some 10%Q) None 0)
             (update_where_id (AgentTask.id row) (mark_assigned clk)
                (agent_tasks db));
         agents :=
           alter (set_active_tasks clk (live_active db agent_id + 1)) agent_id
             (alter (touch_heartbeat clk) agent_id (agents db)) |}.
Proof.
  unfold process_agent_heartbeat.
  set (db0 := {| agent_tasks := agent_tasks db; agents := _ |}).
  destruct (get_next_task db0 clk agent_id) as [db' [[t|]|e]] eqn:Hnext;
    try done.
  assert (Hret : snd (get_next_task db0 clk agent_id) = Return (Some t))
    by (by rewrite Hnext).
  destruct (get_next_task_returned _ _ _ _ Hret)
    as (ag & row & _ & _ & Hin & Ha & Hs & Hobj & Hdb').
  rewrite Hnext in Hdb'. cbn [fst] in Hdb'.
  destruct (returned_task_not_number _ _ Hobj) as (Hid & Hagent & Hest & Hdiv).
  unfold update_task_status. change (is_terminal "working") with false.
  cbn beta iota zeta. intros [= <- <-].
  exists row. rewrite Hid, Hagent, Hdb'. by repeat split.
Qed.



(** ** The simulated execution *)

(** X21. The simulation the scheduler schedules never completes its task.
    On a table with unique task ids, for the task object of any scheduler
    step, [simulate_task_completion] raises at
    [task.estimated_duration / 10] (the object's field holds the
    [completed_at] column, NULL or a text), its handler marks the task
    'failed' with the text of that [TypeError] as result, the agent's
    [failed_tasks] goes up by one and its [completed_tasks] stays, no
    progress update is made and no further scheduler step is taken. *)
Theorem pulled_task_fails db clk agent_id db1 task clock_at :
  unique_ids db →
  process_agent_heartbeat db clk agent_id = (db1, Some task) →
  ∃ db2 row2 ag1 ag2,
    simulate_task_completion db1 clock_at task = (db2, Return None) ∧
    fetch_task (TaskObject.id task) (agent_tasks db2) = Some row2 ∧
    AgentTask.status row2 = "failed" ∧
    AgentTask.progress row2 = 10%Q ∧
    AgentTask.result row2
    = Some ("Task failed: "
            +:+ truediv_error (TaskObject.estimated_duration task)) ∧
    (type_name (TaskObject.estimated_duration task) = "NoneType" ∨
     type_name (TaskObject.estimated_duration task) = "str") ∧
    AgentTask.completed_at row2 = Some (CURRENT_TIMESTAMP (clock_at 0%nat)) ∧
    agents db1 !! agent_id = Some ag1 ∧
    agents db2 !! agent_id = Some ag2 ∧
    Agent.failed_tasks ag2 = Agent.failed_tasks ag1 + 1 ∧
    Agent.completed_tasks ag2 = Agent.completed_tasks ag1.
Proof.
  intros Hnd Hstep.
  destruct (process_agent_heartbeat_spawned _ _ _ _ _ Hstep)
    as (row & Hin & Ha & Hs & Hid & Hagent & Hest & Hdiv & ->).
  pose proof (fetch_task_unique _ _ Hnd Hin) as Hrow.
  set (r1 := set_task_status clk "working" (Some 10%Q) None 0
               (mark_assigned clk row)).
  assert (Hr1 : fetch_task (TaskObject.id task)
                  (update_where_id (AgentTask.id row)
                     (set_task_status clk "working" (Some 10%Q) None 0)
                     (update_where_id (AgentTask.id row) (mark_assigned clk)
                        (agent_tasks db))) = Some r1).
  { rewrite Hid.
    rewrite (fetch_task_update_same _ _ _ (mark_assigned clk row)); [done|done|].
    by apply fetch_task_update_same. }
  assert (Hknown : is_Some (agents db !! agent_id)).
  { unfold process_agent_heartbeat in Hstep.
    destruct (agents db !! agent_id) eqn:Hag; [done|].
    rewrite touch_unknown in Hstep by done.
    unfold get_next_task in Hstep. by rewrite Hag in Hstep. }
  destruct Hknown as [ag Hag].
  unfold simulate_task_completion. rewrite Hdiv. unfold except_branch.
  erewrite (update_task_status_terminal _ _ _ "failed"); [|done|exact Hr1].
  cbn [fst snd agent_tasks agents].
  eexists _, _,
    (set_active_tasks clk (live_active db agent_id + 1) (touch_heartbeat clk ag)),
    (add_stats (clock_at 0%nat) "failed"
       (timedelta_seconds (datetime_now (clock_at 0%nat)) (AgentTask.assigned_at r1))
       (set_active_tasks clk (live_active db agent_id + 1)
          (touch_heartbeat clk ag))).
  split; [reflexivity|]. split.
  { rewrite Hid in Hr1 |- *. apply fetch_task_update_same; [done | exact Hr1]. }
  split; [done|]. split; [done|]. split; [done|]. split.
  { rewrite Hest. destruct (AgentTask.completed_at row); [by right | by left]. }
  split; [done|].
  change (AgentTask.agent_id r1) with (AgentTask.agent_id row). rewrite Ha.
  cbn [agents]. split; [by rewrite !lookup_alter_eq, Hag|].
  split; [by rewrite !lookup_alter_eq, Hag|].
  done.
Qed.

Lemma pulled_task_fails_witness :
  unique_ids queue_db ∧
  (∃ db1 task,
     process_agent_heartbeat queue_db (at_second 3) "qa-quality"
     = (db1, Some task) ∧
     ∃ db2, simulate_task_completion db1 (λ k, at_second (4 + Z.of_nat k)) task
            = (db2, Return None) ∧
            status_of db2 (TaskObject.id task) = Some "failed").
Proof.
  assert (Hnd : unique_ids queue_db).
  { unfold unique_ids. vm_compute. apply NoDup_cons.
    split; [|apply NoDup_singleton].
    intros Hin. apply list_elem_of_singleton in Hin. discriminate. }
  split; [exact Hnd|].
  destruct (process_agent_heartbeat queue_db (at_second 3) "qa-quality")
    as [db1 [task|]] eqn:Hstep; [|vm_compute in Hstep; discriminate].
  exists db1, task. split; [reflexivity|].
  destruct (pulled_task_fails queue_db (at_second 3) "qa-quality" db1 task
              (λ k, at_second (4 + Z.of_nat k)) Hnd Hstep)
    as (db2 & row2 & _ & _ & Hsim & Hrow2 & Hfailed & _).
  exists db2. split; [exact Hsim|].
  unfold status_of. rewrite Hrow2. simpl. by rewrite Hfailed.
Defined.


(** ** The event loop *)

Lemma sched_run_inv (Inv : sched_state → Prop) events :
  (∀ st ev, Inv st → Inv (sched_step st ev)) →
  ∀ st, Inv st → Inv (sched_run st events).
Proof.
  intros Hstep. unfold sched_run.
  induction events as [|ev events IH]; intros st Hst; [done|].
  cbn [foldl]. by apply IH, Hstep.
Qed.

(** A simulation that raises at its first statement is its handler. *)
Lemma simulate_raising db clock_at task :
  truediv (TaskObject.estimated_duration task) 10 = Raise TypeError →
  simulate_task_completion db clock_at task
  = except_branch db (clock_at 0%nat) (TaskObject.id task)
      (truediv_error (TaskObject.estimated_duration task)).
Proof. intros Hdiv. unfold simulate_task_completion. by rewrite Hdiv. Qed.

Lemma except_branch_spawns_nothing db clk task_id msg next :
  snd (except_branch db clk task_id msg) ≠ Return (Some next).
Proof.
  unfold except_branch.
  by destruct (update_task_status db clk task_id "failed" None _) as [db' [x|e]].
Qed.

Lemma process_agent_heartbeat_raises db clk agent_id task :
  snd (process_agent_heartbeat db clk agent_id) = Some task →
  truediv (TaskObject.estimated_duration task) 10 = Raise TypeError.
Proof.
  destruct (process_agent_heartbeat db clk agent_id) as [db1 o] eqn:Hstep.
  simpl. intros ->.
  by destruct (process_agent_heartbeat_spawned _ _ _ _ _ Hstep)
    as (row & _ & _ & _ & _ & _ & _ & Hdiv & _).
Qed.

Lemma sched_step_pool_raises st ev : pool_raises st → pool_raises (sched_step st ev).
Proof.
  unfold pool_raises. intros Hpool. destruct ev as [clk a | clock_at i]; simpl.
  - apply Forall_app. split; [done|].
    destruct (process_agent_heartbeat (store st) clk a).2 as [task|] eqn:Hout;
      simpl; [|constructor].
    constructor; [|constructor]. by eapply process_agent_heartbeat_raises.
  - destruct (spawned st !! i) as [task|] eqn:Hi; [|done]. simpl.
    apply Forall_app. split.
    + by apply Forall_delete.
    + rewrite simulate_raising
        by (eapply Forall_lookup_1 in Hpool; [exact Hpool | exact Hi]).
      destruct (except_branch _ _ _ _).2 as [[next|]|e] eqn:Hout;
        [by destruct (except_branch_spawns_nothing _ _ _ _ _ Hout)
        | constructor | constructor].
Qed.

Lemma nothing_completed_refl db : nothing_completed db db.
Proof.
  split; [done|]. induction (agent_tasks db); constructor; auto.
Qed.

Lemma nothing_completed_trans db1 db2 db3 :
  nothing_completed db1 db2 → nothing_completed db2 db3 →
  nothing_completed db1 db3.
Proof.
  intros [Ha12 Hr12] [Ha23 Hr23]. split.
  - intros a. by rewrite Ha23, Ha12.
  - revert Hr23. generalize (agent_tasks db3).
    induction Hr12 as [|r1 r2 rows1 rows2 [Hid Hst] _ IH]; intros rows3 Hr23.
    + apply Forall2_nil_inv_l in Hr23 as ->. constructor.
    + apply Forall2_cons_inv_l in Hr23 as (r3 & rows3' & [Hid' Hst'] & Hr23 & ->).
      constructor; [|by apply IH]. split; [congruence | auto].
Qed.

Lemma nothing_completed_update db task_id (f : AgentTask.t → AgentTask.t) ags :
  (∀ r, AgentTask.id (f r) = AgentTask.id r ∧
        AgentTask.status (f r) ≠ "completed") →
  (∀ a, Agent.completed_tasks <$> ags !! a
        = Agent.completed_tasks <$> agents db !! a) →
  nothing_completed db
    {| agent_tasks := update_where_id task_id f (agent_tasks db); agents := ags |}.
Proof.
  intros Hf Hags. split; [done|]. simpl. unfold update_where_id.
  apply Forall2_fmap_r, Forall2_same_length_lookup. split; [done|].
  intros i r r' Hr Hr'. simplify_eq.
  change (AgentTask.id (if has_id task_id r then f r else r) = AgentTask.id r ∧
          (AgentTask.status (if has_id task_id r then f r else r) = "completed" →
           AgentTask.status r = "completed")).
  destruct (has_id task_id r); [|done].
  destruct (Hf r) as [Hid Hst]. split; [done|]. by intros ?.
Qed.

Lemma completed_tasks_alter (f : Agent.t → Agent.t) agent_id (ags : gmap string Agent.t) :
  (∀ ag, Agent.completed_tasks (f ag) = Agent.completed_tasks ag) →
  ∀ a, Agent.completed_tasks <$> alter f agent_id ags !! a
       = Agent.completed_tasks <$> ags !! a.
Proof.
  intros Hf a. destruct (decide (agent_id = a)) as [->|Hne].
  - rewrite lookup_alter_eq. destruct (ags !! a); simpl; [by rewrite Hf | done].
  - by rewrite lookup_alter_ne.
Qed.

Lemma get_next_task_nothing_completed db clk agent_id :
  nothing_completed db (fst (get_next_task db clk agent_id)).
Proof.
  unfold get_next_task.
  destruct (agents db !! agent_id); [|apply nothing_completed_refl].
  destruct (_ <=? _); [apply nothing_completed_refl|].
  destruct (head _); [|apply nothing_completed_refl].
  cbn [fst]. apply nothing_completed_update; [done|].
  by apply completed_tasks_alter.
Qed.

Lemma update_task_status_nothing_completed db clk task_id status progress result :
  status ≠ "completed" →
  nothing_completed db
    (fst (update_task_status db clk task_id status progress result)).
Proof.
  intros Hne. unfold update_task_status. destruct (is_terminal status).
  - destruct (fetch_task task_id (agent_tasks db));
      [|apply nothing_completed_refl].
    cbn [fst]. apply nothing_completed_update; [done|].
    apply completed_tasks_alter. intros ag. unfold add_stats. simpl.
    by rewrite bool_decide_eq_false_2.
  - cbn [fst]. by apply nothing_completed_update.
Qed.

Lemma process_agent_heartbeat_nothing_completed db clk agent_id :
  nothing_completed db (fst (process_agent_heartbeat db clk agent_id)).
Proof.
  unfold process_agent_heartbeat.
  set (db0 := {| agent_tasks := agent_tasks db; agents := _ |}).
  assert (H0 : nothing_completed db db0).
  { split; [by apply completed_tasks_alter|]. simpl.
    apply (nothing_completed_refl db). }
  pose proof (get_next_task_nothing_completed db0 clk agent_id) as Hnext.
  destruct (get_next_task db0 clk agent_id) as [db1 [[task|]|e]];
    cbn [fst] in *; try (by eapply nothing_completed_trans).
  pose proof (update_task_status_nothing_completed db1 clk (TaskObject.id task)
                "working" (Some 10%Q) None) as Hstart.
  destruct (update_task_status db1 clk _ "working" _ None) as [db2 [x|e]];
    cbn [fst] in *;
    (eapply nothing_completed_trans; [exact H0|];
     eapply nothing_completed_trans; [exact Hnext|]; by apply Hstart).
Qed.

Lemma except_branch_nothing_completed db clk task_id msg :
  nothing_completed db (fst (except_branch db clk task_id msg)).
Proof.
  unfold except_branch.
  pose proof (update_task_status_nothing_completed db clk task_id "failed" None
                (Some ("Task failed: " +:+ msg))) as H.
  destruct (update_task_status db clk task_id "failed" None _) as [db' [x|e]];
    by apply H.
Qed.

Lemma sched_step_nothing_completed db st ev :
  pool_raises st ∧ nothing_completed db (store st) →
  pool_raises (sched_step st ev) ∧ nothing_completed db (store (sched_step st ev)).
Proof.
  intros [Hpool Hdone]. split; [by apply sched_step_pool_raises|].
  eapply nothing_completed_trans; [exact Hdone|].
  destruct ev as [clk a | clock_at i]; simpl.
  - apply process_agent_heartbeat_nothing_completed.
  - destruct (spawned st !! i) as [task|] eqn:Hi;
      [|apply nothing_completed_refl]. simpl.
    rewrite simulate_raising
      by (eapply Forall_lookup_1 in Hpool; [exact Hpool | exact Hi]).
    apply except_branch_nothing_completed.
Qed.

Lemma fetch_task_Forall2 (P : AgentTask.t → AgentTask.t → Prop) rows rows'
    task_id r' :
  Forall2 (λ r r', AgentTask.id r' = AgentTask.id r ∧ P r r') rows rows' →
  fetch_task task_id rows' = Some r' →
  ∃ r, fetch_task task_id rows = Some r ∧ P r r'.
Proof.
  induction 1 as [|r0 r0' rows rows' [Hid HP] _ IH]; intros Hfetch; [done|].
  rewrite fetch_task_cons in Hfetch |- *.
  assert (Hsame : has_id task_id r0' = has_id task_id r0)
    by (unfold has_id; by rewrite Hid).
  rewrite Hsame in Hfetch. destruct (has_id task_id r0); [|by apply IH].
  simplify_eq. by exists r0.
Qed.

(** X22. The event loop never completes a task. Started with nothing
    scheduled, after any sequence of scheduler steps and scheduled
    simulations, in any order, the [completed_tasks] of every agent are
    what they were, the task table has as many rows as before, and every
    task that is 'completed' was 'completed' at the start: a pulled task
    ends 'failed'. *)
Theorem scheduler_never_completes db events :
  let db' := store (sched_run (sched_init db) events) in
  (∀ a, Agent.completed_tasks <$> agents db' !! a
        = Agent.completed_tasks <$> agents db !! a) ∧
  length (agent_tasks db') = length (agent_tasks db) ∧
  (∀ task_id, status_of db' task_id = Some "completed" →
              status_of db task_id = Some "completed").
Proof.
  intros db'. subst db'.
  destruct (sched_run_inv
              (λ st, pool_raises st ∧ nothing_completed db (store st)) events
              (sched_step_nothing_completed db) (sched_init db))
    as [_ [Hags Hrows]].
  { split; [constructor | apply nothing_completed_refl]. }
  split; [done|]. split; [symmetry; by eapply Forall2_length|].
  intros task_id. unfold status_of.
  destruct (fetch_task task_id (agent_tasks (store _))) as [r'|] eqn:Hr';
    [|done].
  destruct (fetch_task_Forall2 _ _ _ _ _ Hrows Hr') as (r & -> & Hst).
  simpl. intros [= Hdone]. by rewrite Hst.
Qed.


Lemma update_task_status_keeps_other db clk task_id status progress result other :
  task_id ≠ other →
  fetch_task other
    (agent_tasks (fst (update_task_status db clk task_id status progress result)))
  = fetch_task other (agent_tasks db).
Proof.
  intros Hne. unfold update_task_status. destruct (is_terminal status).
  - destruct (fetch_task task_id (agent_tasks db)); [|done]. cbn [fst agent_tasks].
    by apply fetch_task_update_other.
  - cbn [fst agent_tasks]. by apply fetch_task_update_other.
Qed.

Lemma get_next_task_keeps_row db clk agent_id task_id r :
  unique_ids db →
  fetch_task task_id (agent_tasks db) = Some r →
  AgentTask.status r ≠ "pending" →
  fetch_task task_id (agent_tasks (fst (get_next_task db clk agent_id))) = Some r.
Proof.
  intros Hnd Hr Hst. unfold get_next_task.
  destruct (agents db !! agent_id); [|done].
  destruct (_ <=? _); [done|].
  destruct (head _) as [row|] eqn:Hhd; [|done]. cbn [fst agent_tasks].
  apply head_order_by_Some in Hhd as [Hin _].
  apply elem_of_select in Hin as [Hp Hin].
  apply pending_of_true in Hp as [_ Hpending].
  rewrite fetch_task_update_other; [done|done|].
  intros ->. rewrite (fetch_task_unique _ _ Hnd Hin) in Hr. by simplify_eq.
Qed.

Lemma process_agent_heartbeat_keeps_row db clk agent_id task_id r :
  unique_ids db →
  fetch_task task_id (agent_tasks db) = Some r →
  AgentTask.status r ≠ "pending" →
  fetch_task task_id (agent_tasks (fst (process_agent_heartbeat db clk agent_id)))
  = Some r ∧
  ∀ task, snd (process_agent_heartbeat db clk agent_id) = Some task →
          TaskObject.id task ≠ task_id.
Proof.
  intros Hnd Hr Hst. unfold process_agent_heartbeat.
  set (db0 := {| agent_tasks := agent_tasks db; agents := _ |}).
  assert (Hnd0 : unique_ids db0) by done.
  assert (Hr0 : fetch_task task_id (agent_tasks db0) = Some r) by done.
  pose proof (get_next_task_keeps_row db0 clk agent_id task_id r Hnd0 Hr0 Hst)
    as Hkeep.
  destruct (get_next_task db0 clk agent_id) as [db1 [[task|]|e]] eqn:Hnext;
    cbn [fst snd] in *; try (split; [done|]; by intros ?).
  assert (Hret : snd (get_next_task db0 clk agent_id) = Return (Some task))
    by (by rewrite Hnext).
  destruct (get_next_task_returned _ _ _ _ Hret)
    as (ag & row & _ & _ & Hin & _ & Hs & Hobj & _).
  destruct (returned_task_not_number _ _ Hobj) as (Hid & _).
  assert (Hne : TaskObject.id task ≠ task_id).
  { rewrite Hid. intros <-.
    rewrite (fetch_task_unique _ _ Hnd0 Hin) in Hr0. by simplify_eq. }
  pose proof (update_task_status_keeps_other db1 clk (TaskObject.id task)
                "working" (Some 10%Q) None task_id Hne) as Hother.
  destruct (update_task_status db1 clk _ "working" _ None) as [db2 [x|e]];
    cbn [fst snd] in *.
  - split; [by rewrite Hother|]. by intros ? [= <-].
  - split; [by rewrite Hother|]. by intros ?.
Qed.

(** The invariant behind the next two theorems: the row is in place, the
    key is unique, and no scheduled simulation is about this task. *)
Lemma sched_step_keeps_row task_id r st ev :
  AgentTask.status r ≠ "pending" →
  pool_raises st ∧ unique_ids (store st) ∧
  fetch_task task_id (agent_tasks (store st)) = Some r ∧
  Forall (λ task, TaskObject.id task ≠ task_id) (spawned st) →
  pool_raises (sched_step st ev) ∧ unique_ids (store (sched_step st ev)) ∧
  fetch_task task_id (agent_tasks (store (sched_step st ev))) = Some r ∧
  Forall (λ task, TaskObject.id task ≠ task_id) (spawned (sched_step st ev)).
Proof.
  intros Hst (Hpool & Hnd & Hr & Hids).
  split; [by apply sched_step_pool_raises|].
  destruct ev as [clk a | clock_at i]; simpl.
  - destruct (process_agent_heartbeat_keeps_row _ clk a _ _ Hnd Hr Hst)
      as [Hkeep Hnew].
    split; [apply (api_step_unique_ids _ (CallProcessAgentHeartbeat clk a) Hnd)|].
    split; [done|]. apply Forall_app. split; [done|].
    destruct (process_agent_heartbeat (store st) clk a).2 as [task|];
      simpl; [|constructor].
    constructor; [by apply Hnew | constructor].
  - destruct (spawned st !! i) as [task|] eqn:Hi; [|done]. simpl.
    split; [apply (api_step_unique_ids _
                     (CallSimulateTaskCompletion clock_at task) Hnd)|].
    assert (Hdiv : truediv (TaskObject.estimated_duration task) 10
                   = Raise TypeError)
      by (eapply Forall_lookup_1 in Hpool; [exact Hpool | exact Hi]).
    assert (Hne : TaskObject.id task ≠ task_id)
      by (eapply Forall_lookup_1 in Hids; [exact Hids | exact Hi]).
    rewrite simulate_raising by done. split.
    + unfold except_branch.
      pose proof (update_task_status_keeps_other (store st) (clock_at 0%nat)
                    (TaskObject.id task) "failed" None
                    (Some ("Task failed: " +:+
                           truediv_error (TaskObject.estimated_duration task)))
                    task_id Hne) as Hother.
      destruct (update_task_status (store st) _ _ "failed" None _)
        as [db' [x|e]]; cbn [fst] in *; by rewrite Hother.
    + apply Forall_app. split; [by apply Forall_delete|].
      destruct (except_branch _ _ _ _).2 as [[next|]|e] eqn:Hout;
        [by destruct (except_branch_spawns_nothing _ _ _ _ _ Hout)
        | constructor | constructor].
Qed.



(** X24. A task created through [distribute_task] is never started. The
    call leaves the task 'assigned', and [get_next_task] pulls 'pending'
    rows only: on a table with unique task ids, after a [distribute_task]
    that returned and any sequence of scheduler steps and scheduled
    simulations, the task is still 'assigned'. *)
Theorem distributed_task_never_started db clk task_id task_type title
    description priority assigned_to x events :
  unique_ids db →
  fetch_task task_id (agent_tasks db) = None →
  let out := distribute_task db clk task_id task_type title description
               priority assigned_to in
  snd out = Return x →
  status_of (store (sched_run (sched_init (fst out)) events)) task_id
  = Some "assigned".
Proof.
  intros Hnd Hfresh out Hret. subst out.
  pose proof (api_step_unique_ids db
                (CallDistributeTask clk task_id task_type title description
                   priority assigned_to) Hnd) as Hnd1.
  cbn [api_step] in Hnd1.
  destruct (distribute_task_returns _ _ _ _ _ _ _ _ _ Hret) as (a & Hchosen & Ha).
  rewrite (distribute_task_with _ _ _ _ _ _ _ _ a) in Hnd1 |- * by done.
  cbn [fst] in *.
  set (row := set_task_status clk "assigned" None None 0
                (inserted_row (new_task clk task_id a task_type title
                                 description priority))) in *.
  set (db1 := {| agent_tasks := agent_tasks db ++ [row]; agents := _ |}) in *.
  assert (Hrow : fetch_task task_id (agent_tasks db1) = Some row)
    by (by apply fetch_task_app_fresh).
  assert (Hst : AgentTask.status row ≠ "pending") by discriminate.
  destruct (sched_run_inv _ events
              (λ st ev, sched_step_keeps_row task_id row st ev Hst)
              (sched_init db1))
    as (_ & _ & Hkeep & _).
  { split; [constructor|]. split; [done|]. split; [done | constructor]. }
  unfold status_of. by rewrite Hkeep.
Qed.

Lemma distributed_task_never_started_witness :
  unique_ids queue_db ∧
  fetch_task "t3" (agent_tasks queue_db) = None ∧
  snd (distribute_task queue_db (at_second 3) "t3" "testing" "regress" "rerun" 2
         None) = Return "t3" ∧
  status_of
    (store (sched_run
              (sched_init (fst (distribute_task queue_db (at_second 3) "t3"
                                  "testing" "regress" "rerun" 2 None)))
              evening)) "t3" = Some "assigned".
Proof.
  assert (Hnd : unique_ids queue_db).
  { unfold unique_ids. vm_compute. apply NoDup_cons.
    split; [|apply NoDup_singleton].
    intros Hin. apply list_elem_of_singleton in Hin. discriminate. }
  assert (Hret : snd (distribute_task queue_db (at_second 3) "t3" "testing"
                        "regress" "rerun" 2 None) = Return "t3")
    by (vm_compute; reflexivity).
  split; [exact Hnd|]. split; [reflexivity|]. split; [exact Hret|].
  exact (distributed_task_never_started queue_db (at_second 3) "t3" "testing"
           "regress" "rerun" 2 None "t3" evening Hnd eq_refl Hret).
Defined.


(** ** The registry *)

Lemma initialize_entry_tasks db item :
  agent_tasks (initialize_entry db item) = agent_tasks db.
Proof.
  unfold initialize_entry. destruct (RosterEntry.id item.2) as [s|]; [|done].
  by case_bool_decide.
Qed.

Lemma initialize_agents_tasks items : ∀ db,
  agent_tasks (_initialize_agents db items) = agent_tasks db.
Proof.
  unfold _initialize_agents.
  induction items as [|item items IH]; intros db; [done|].
  cbn [foldl]. by rewrite IH, initialize_entry_tasks.
Qed.

Lemma initialize_agents_unregistered items agent_id : ∀ db,
  ¬ registered items agent_id →
  agents (_initialize_agents db items) !! agent_id = agents db !! agent_id.
Proof.
  unfold _initialize_agents.
  induction items as [|item items IH]; intros db Hno; [done|].
  cbn [foldl]. rewrite IH.
  - unfold initialize_entry.
    destruct (RosterEntry.id item.2) as [s|] eqn:Hid; [|done].
    case_bool_decide as Hs; [done|].
    unfold add_agent. cbn [agents AgentConfig.id entry_config].
    apply lookup_insert_ne. intros ->. apply Hno.
    split; [done|]. exists item. split; [left | done].
  - intros [Hne (it & Hin & Hid)]. apply Hno. split; [done|].
    exists it. split; [by right | done].
Qed.

Lemma last_entry {A} (P : A → Prop) `{∀ x, Decision (P x)} (l : list A) :
  Exists P l →
  ∃ before x after, l = before ++ x :: after ∧ P x ∧ ¬ Exists P after.
Proof.
  induction l as [|y l IH]; intros Hex; [by apply Exists_nil in Hex|].
  destruct (decide (Exists P l)) as [Hlater|Hnot].
  - destruct (IH Hlater) as (before & x & after & -> & Hx & Hno).
    by exists (y :: before), x, after.
  - apply Exists_cons in Hex as [Hy|Hex]; [|done].
    by exists [], y, l.
Qed.

(** X25. [_initialize_agents] writes the agents table only. An entry without
    an id, or with an empty one, is skipped. For every id the roster
    registers, the row after the run is the one [add_agent] writes for the
    last entry with that id: its capacity is 3 and its [active_tasks],
    [completed_tasks], [failed_tasks] and [total_task_time] are 0 and its
    heartbeat NULL, whatever the row held before. The row of every other id,
    and the task table, are as they were. *)
Theorem initialize_agents_spec db items :
  let db' := _initialize_agents db items in
  agent_tasks db' = agent_tasks db ∧
  (∀ a, ¬ registered items a → agents db' !! a = agents db !! a) ∧
  (∀ a before item after,
     items = before ++ item :: after →
     RosterEntry.id item.2 = Some a → a ≠ "" → ¬ registered after a →
     agents db' !! a
     = agents (add_agent db item.1 (entry_config a item.2)) !! a) ∧
  (∀ a, registered items a →
     ∃ ag, agents db' !! a = Some ag ∧
           Agent.max_concurrent_tasks ag = 3 ∧
           Agent.active_tasks ag = 0 ∧
           Agent.completed_tasks ag = 0 ∧
           Agent.failed_tasks ag = 0 ∧
           Agent.total_task_time ag = 0 ∧
           Agent.last_heartbeat ag = None).
Proof.
  intros db'. subst db'.
  assert (Hlast : ∀ a before item after,
     items = before ++ item :: after →
     RosterEntry.id item.2 = Some a → a ≠ "" → ¬ registered after a →
     agents (_initialize_agents db items) !! a
     = agents (add_agent db item.1 (entry_config a item.2)) !! a).
  { intros a before item after -> Hid Ha Hno.
    unfold _initialize_agents. rewrite foldl_app. cbn [foldl].
    fold (_initialize_agents (initialize_entry (foldl initialize_entry db before)
                                item) after).
    rewrite initialize_agents_unregistered by done.
    unfold initialize_entry. rewrite Hid, bool_decide_eq_false_2 by done.
    unfold add_agent. cbn [agents AgentConfig.id entry_config].
    by rewrite !lookup_insert_eq. }
  split; [apply initialize_agents_tasks|].
  split; [intros a; apply initialize_agents_unregistered|].
  split; [exact Hlast|].
  intros a [Ha Hreg].
  assert (Hsplit : ∃ before item after,
            items = before ++ item :: after ∧
            RosterEntry.id item.2 = Some a ∧ ¬ registered after a).
  { destruct (last_entry (λ item : Clock * RosterEntry.t,
                            RosterEntry.id item.2 = Some a) items)
      as (before & item & after & Hitems & Hid & Hno).
    { apply Exists_exists. destruct Hreg as (item & Hin & Hid). eauto. }
    exists before, item, after. split; [done|]. split; [done|].
    intros [_ (it & Hin & Hit)]. apply Hno, Exists_exists. eauto. }
  destruct Hsplit as (before & item & after & Hitems & Hid & Hno).
  rewrite (Hlast a before item after Hitems Hid Ha Hno).
  unfold add_agent. cbn [agents AgentConfig.id entry_config].
  rewrite lookup_insert_eq. eexists. split; [reflexivity|]. done.
Qed.


(** ** Statuses outside the lifecycle, and what the policy reads *)

(** X26. [update_task_status] does not validate the status. For an existing
    task and any status other than 'working', 'completed' and 'failed' (one
    of the lifecycle or not), the call returns normally, stores the string
    as given, stamps [last_updated], stores [progress] and [result] when
    they are passed, and changes nothing else: no other column of the task,
    no other task, no agents row. *)
Theorem update_task_status_plain db clk task_id status progress result row :
  fetch_task task_id (agent_tasks db) = Some row →
  status ≠ "working" → status ≠ "completed" → status ≠ "failed" →
  let out := update_task_status db clk task_id status progress result in
  snd out = Return () ∧
  agents (fst out) = agents db ∧
  fetch_task task_id (agent_tasks (fst out)) =
    Some {| AgentTask.id := AgentTask.id row;
            AgentTask.agent_id := AgentTask.agent_id row;
            AgentTask.title := AgentTask.title row;
            AgentTask.description := AgentTask.description row;
            AgentTask.priority := AgentTask.priority row;
            AgentTask.status := status;
            AgentTask.progress := default (AgentTask.progress row) progress;
            AgentTask.assigned_at := AgentTask.assigned_at row;
            AgentTask.started_at := AgentTask.started_at row;
            AgentTask.completed_at := AgentTask.completed_at row;
            AgentTask.estimated_duration := AgentTask.estimated_duration row;
            AgentTask.actual_duration := AgentTask.actual_duration row;
            AgentTask.dependencies := AgentTask.dependencies row;
            AgentTask.result :=
              match result with
              | Some text => Some text
              | None => AgentTask.result row
              end;
            AgentTask.error_message := AgentTask.error_message row;
            AgentTask.created_by := AgentTask.created_by row;
            AgentTask.last_updated := CURRENT_TIMESTAMP clk |} ∧
  (∀ other, other ≠ task_id →
     fetch_task other (agent_tasks (fst out)) = fetch_task other (agent_tasks db)).
Proof.
  intros Hrow Hw Hc Hf out. subst out.
  assert (Hterm : is_terminal status = false).
  { unfold is_terminal. by rewrite !bool_decide_eq_false_2. }
  unfold update_task_status. rewrite Hterm. cbn [fst snd agent_tasks agents].
  split; [done|]. split; [done|]. split.
  - rewrite (fetch_task_update_same _ _ _ row) by done.
    unfold set_task_status. by rewrite Hterm, bool_decide_eq_false_2.
  - intros other Hne. by apply fetch_task_update_other.
Qed.

Lemma update_task_status_plain_witness :
  fetch_task "t1" (agent_tasks working_db) = Some working_row ∧
  status_of (fst (update_task_status working_db (at_second 40) "t1" "paused"
                    None None)) "t1" = Some "paused".
Proof.
  assert (Hrow : fetch_task "t1" (agent_tasks working_db) = Some working_row)
    by (vm_compute; reflexivity).
  split; [exact Hrow|].
  destruct (update_task_status_plain working_db (at_second 40) "t1" "paused"
              None None working_row Hrow) as (_ & _ & Hnew & _);
    [discriminate | discriminate | discriminate |].
  unfold status_of. by rewrite Hnew.
Defined.

Lemma live_active_same_rows db db' agent_id :
  agent_tasks db = agent_tasks db' →
  live_active db agent_id = live_active db' agent_id.
Proof. unfold live_active. by intros ->. Qed.

Lemma find_best_loop_live_only db db' clk clk' candidates :
  agent_tasks db = agent_tasks db' →
  (∀ a, Agent.max_concurrent_tasks <$> agents db !! a
        = Agent.max_concurrent_tasks <$> agents db' !! a) →
  ∀ best min_workload,
    find_best_loop db clk candidates best min_workload
    = find_best_loop db' clk' candidates best min_workload.
Proof.
  intros Hrows Hcap.
  induction candidates as [|a rest IH]; intros best min_workload; [done|].
  cbn [find_best_loop]. specialize (Hcap a).
  destruct (agents db !! a) as [ag|] eqn:Hag,
           (agents db' !! a) as [ag'|] eqn:Hag'; try done.
  - destruct (get_agent_workload_known db clk a ag Hag) as (w & -> & Hn & Hm).
    destruct (get_agent_workload_known db' clk' a ag' Hag')
      as (w' & -> & Hn' & Hm').
    rewrite Hn, Hm, Hn', Hm'. simpl in Hcap. simplify_eq.
    rewrite (live_active_same_rows db db' a Hrows), Hcap.
    destruct (_ <? _); [|apply IH]. destruct (below _ _); apply IH.
  - destruct (get_agent_workload_unknown db clk a Hag) as [msg ->].
    destruct (get_agent_workload_unknown db' clk' a Hag') as [msg' ->].
    apply IH.
Qed.

(** X27. The policy reads live counts and capacities only. Two stores with
    the same task table and the same [max_concurrent_tasks] for every id
    give the same answer to [find_best_agent] at any two clock readings,
    whatever their stored [active_tasks], statistics and heartbeats are. *)
Theorem find_best_agent_live_only db db' clk clk' task_type :
  agent_tasks db = agent_tasks db' →
  (∀ a, Agent.max_concurrent_tasks <$> agents db !! a
        = Agent.max_concurrent_tasks <$> agents db' !! a) →
  find_best_agent db clk task_type = find_best_agent db' clk' task_type.
Proof.
  intros Hrows Hcap. unfold find_best_agent.
  by apply find_best_loop_live_only.
Qed.

Lemma find_best_agent_live_only_witness :
  agent_tasks queue_db = agent_tasks miscounted_db ∧
  stored_active queue_db "qa-quality" = Some 0 ∧
  stored_active miscounted_db "qa-quality" = Some 7 ∧
  find_best_agent queue_db (at_second 3) "testing"
  = find_best_agent miscounted_db (at_second 99) "testing".
Proof.
  split; [reflexivity|]. split; [vm_compute; reflexivity|].
  split; [vm_compute; reflexivity|].
  apply find_best_agent_live_only; [reflexivity|].
  intros a. unfold miscounted_db. cbn [agents].
  destruct (decide ("qa-quality" = a)) as [<-|Hne].
  - rewrite lookup_alter_eq. by destruct (agents queue_db !! "qa-quality").
  - by rewrite lookup_alter_ne.
Defined.
